(** * LMSTools: the JSON-RPC client of a Logitech Media Server

    A shallow embedding of [LMSTools/server.py] and [LMSTools/utils.py].
    Python methods that read or assign attributes of [self] and talk to the
    network become functions in a state-and-exception monad over a [world]:
    the server object together with the log of the HTTP exchanges made so far.
    The HTTP server is a parameter ([net]); so is the player factory
    [LMSPlayer.from_index], whose module is not part of the sources. *)

From Stdlib Require Import ZArith List String Ascii Bool Lia PrimFloat.
From Stdlib Require Import DecimalString.
Import ListNotations.

Local Open Scope string_scope.
Local Open Scope Z_scope.

Set Implicit Arguments.
Set Warnings "-register-all".

(** ** Python exceptions and results *)

(** The exception classes that the modelled code can raise.  [HTTPError] and
    [RequestsConnectionError] are the two classes of [requests.exceptions]
    raised by [raise_for_status] and by [requests.post];
    [JSONDecodeError] is the error raised by [response.json()];
    [LMSConnectionError] is the class declared in [server.py]. *)
Inductive exn : Type :=
| TypeError
| AttributeError
| KeyError
| ValueError
| JSONDecodeError
| UnicodeEncodeError
| HTTPError
| RequestsConnectionError
| LMSConnectionError.

Definition exn_eqb (a b : exn) : bool :=
  match a, b with
  | TypeError, TypeError | AttributeError, AttributeError
  | KeyError, KeyError | ValueError, ValueError
  | JSONDecodeError, JSONDecodeError
  | UnicodeEncodeError, UnicodeEncodeError | HTTPError, HTTPError
  | RequestsConnectionError, RequestsConnectionError
  | LMSConnectionError, LMSConnectionError => true
  | _, _ => false
  end.

(** [except cls:] catches the instances of [cls] and of its subclasses.
    [LMSConnectionError] derives from [Exception] directly and nothing derives
    from it, so only the class itself matches. *)
Definition isinstance (e cls : exn) : bool := exn_eqb e cls.

Inductive outcome (A : Type) : Type :=
| Return (a : A)
| Raise (e : exn).
Arguments Raise {A} e.

(** ** JSON values, as [json.loads] builds them *)

Inductive json : Type :=
| JNull
| JBool (b : bool)
| JInt (n : Z)
| JFloat (f : float)
| JStr (s : string)
| JArr (l : list json)
| JObj (kv : list (string * json)).

(** Lookup in a [dict] kept as an association list. *)
Fixpoint assoc {V : Type} (k : string) (kv : list (string * V)) : option V :=
  match kv with
  | [] => None
  | (k', v) :: rest => if String.eqb k k' then Some v else assoc k rest
  end.

(** [obj[key]] on a parsed JSON value: a [dict] looks the key up and raises
    [KeyError] when it is absent; [None], booleans, numbers, strings and lists
    raise [TypeError] for a string subscript. *)
Definition getitem (obj : json) (key : string) : outcome json :=
  match obj with
  | JObj kv => match assoc key kv with
               | Some v => Return v
               | None => Raise KeyError
               end
  | _ => Raise TypeError
  end.

(** [bool(v)] *)
Definition truthy (v : json) : bool :=
  match v with
  | JNull => false
  | JBool b => b
  | JInt n => negb (n =? 0)
  | JFloat f => negb (PrimFloat.eqb f PrimFloat.zero)
  | JStr s => negb (String.eqb s "")
  | JArr l => match l with [] => false | _ => true end
  | JObj kv => match kv with [] => false | _ => true end
  end.

(** ** Strings *)

(** A [str] is kept as the string of the bytes of its UTF-8 encoding. *)

Fixpoint str_of_bytes (bs : list nat) : string :=
  match bs with
  | [] => EmptyString
  | b :: rest => String (ascii_of_nat b) (str_of_bytes rest)
  end.

(** The characters for which [str.isspace()] holds, the white space of
    [str.split()]: U+0009 to U+000D, U+001C to U+0020, U+0085, U+00A0, U+1680,
    U+2000 to U+200A, U+2028, U+2029, U+202F, U+205F and U+3000. *)
Definition whitespace : list string :=
  map str_of_bytes
    [[9]; [10]; [11]; [12]; [13]; [28]; [29]; [30]; [31]; [32];
     [194; 133]; [194; 160]; [225; 154; 128];
     [226; 128; 128]; [226; 128; 129]; [226; 128; 130]; [226; 128; 131];
     [226; 128; 132]; [226; 128; 133]; [226; 128; 134]; [226; 128; 135];
     [226; 128; 136]; [226; 128; 137]; [226; 128; 138];
     [226; 128; 168]; [226; 128; 169]; [226; 128; 175]; [226; 129; 159];
     [227; 128; 128]]%nat.

(** Whether [s] starts with [p]. *)
Fixpoint starts_with (p s : string) : bool :=
  match p with
  | EmptyString => true
  | String a p' =>
      match s with
      | EmptyString => false
      | String b s' => Ascii.eqb a b && starts_with p' s'
      end
  end.

(** The number of bytes of the white space character that [s] starts with,
    0 when it starts with none. *)
Definition space_length (s : string) : nat :=
  match find (fun sp => starts_with sp s) whitespace with
  | Some sp => String.length sp
  | None => 0%nat
  end.

(** [s.split()]: the maximal runs of characters that are not white space.
    [cur] is the run being read; [skip] counts the bytes still to pass of the
    white space character that was met last. *)
Fixpoint split_ws_go (s : string) (skip : nat) (cur : option string)
  : list string :=
  match s with
  | EmptyString => match cur with Some w => [w] | None => [] end
  | String c rest =>
      match skip with
      | S k => split_ws_go rest k cur
      | O =>
          match space_length s with
          | S k =>
              match cur with
              | Some w => w :: split_ws_go rest k None
              | None => split_ws_go rest k None
              end
          | O =>
              split_ws_go rest 0
                (Some (match cur with Some w => w | None => "" end
                       ++ String c EmptyString)%string)
          end
      end
  end.

Definition split_ws (s : string) : list string := split_ws_go s 0 None.

(** [s.split(sep)] for a one-character separator: never empty, and the empty
    string gives one empty field. *)
Fixpoint split_on (sep : ascii) (s : string) : list string :=
  match s with
  | EmptyString => [""]
  | String c rest =>
      if Ascii.eqb c sep then "" :: split_on sep rest
      else match split_on sep rest with
           | w :: ws => String c w :: ws
           | [] => [String c EmptyString]
           end
  end.

(** [sep.join(words)] for a one-character separator. *)
Fixpoint join (sep : ascii) (words : list string) : string :=
  match words with
  | [] => ""
  | w :: rest =>
      match rest with
      | [] => w
      | _ :: _ => (w ++ String sep (join sep rest))%string
      end
  end.

(** Whether a white space character starts somewhere in [w] followed by
    [s], at a byte of [w]. *)
Fixpoint blank_in (w s : string) : bool :=
  match w with
  | EmptyString => false
  | String c rest =>
      negb (Nat.eqb (space_length (w ++ s)%string) 0) || blank_in rest s
  end.

(** Whether a string holds a white space character. *)
Fixpoint has_blank (s : string) : bool :=
  match s with
  | EmptyString => false
  | String c rest => negb (Nat.eqb (space_length s) 0) || has_blank rest
  end.

(** [str(n)] for an [int]. *)
Definition str_of_int (n : Z) : string := NilZero.string_of_int (Z.to_int n).

(** Arguments of [str.format]. *)
Inductive fmtarg : Type :=
| FStr (s : string)
| FInt (n : Z).

Definition fmt_str (a : fmtarg) : string :=
  match a with
  | FStr s => s
  | FInt n => str_of_int n
  end.

(** [template.format] with keyword arguments [kw], for templates whose
    replacement fields are plain names.  [field] is the name being read after
    an opening brace.  A brace that is not closed and a closing brace on its
    own raise [ValueError]; a name that is not a keyword raises [KeyError]. *)
Fixpoint format_go (template : string) (field : option string)
         (kw : list (string * fmtarg)) : outcome string :=
  match template with
  | EmptyString =>
      match field with None => Return "" | Some _ => Raise ValueError end
  | String c rest =>
      match field with
      | None =>
          if Ascii.eqb c "{" then format_go rest (Some "") kw
          else if Ascii.eqb c "}" then Raise ValueError
          else match format_go rest None kw with
               | Return out => Return (String c out)
               | Raise e => Raise e
               end
      | Some name =>
          if Ascii.eqb c "}"
          then match assoc name kw with
               | Some v => match format_go rest None kw with
                           | Return out => Return (fmt_str v ++ out)%string
                           | Raise e => Raise e
                           end
               | None => Raise KeyError
               end
          else format_go rest (Some (name ++ String c EmptyString)%string) kw
      end
  end.

Definition format (template : string) (kw : list (string * fmtarg))
  : outcome string :=
  format_go template None kw.

(** ** The server object, the network and the monad *)

(** Modelled from the spec: [LMSTools/player.py] is not part of the sources.
    A player handle exposes a [name] and a [ref]. *)
Record LMSPlayer : Type := {
  name : string;
  ref : string
}.

(** A [command] or a [player] argument of [_request]: a [str] or a [list] of
    strings. *)
Inductive pyval : Type :=
| PStr (s : string)
| PList (l : list string).

Module Server.

(** The attributes of an [LMSServer].  [_version] holds a JSON value, [JNull]
    being Python's [None]; [players] is [None] until [get_players] assigns the
    attribute. *)
Record LMSServer : Type := {
  host : string;
  port : Z;
  _version : json;
  id : Z;
  web : string;
  url : string;
  players : option (list LMSPlayer)
}.

(** The body of a JSON-RPC call: the dictionary [params] of [_request]. *)
Record payload : Type := {
  p_id : Z;
  p_method : string;
  p_params : pyval * pyval
}.

(** What [requests.post] gets back.  [body] is [None] when the text of the
    response is not JSON. *)
Record response : Type := {
  status_code : Z;
  body : option json
}.

Inductive reply : Type :=
| Refused
| Answered (r : response).

(** One call of [requests.post]. *)
Record exchange : Type := {
  x_url : string;
  x_json : payload;
  x_reply : reply
}.

Record world : Type := {
  self : LMSServer;
  posted : list exchange
}.

Definition M (A : Type) : Type := world -> outcome A * world.

Definition ret {A : Type} (a : A) : M A := fun w => (Return a, w).

Definition raise {A : Type} (e : exn) : M A := fun w => (Raise e, w).

Definition lift {A : Type} (o : outcome A) : M A := fun w => (o, w).

Definition bind {A B : Type} (m : M A) (k : A -> M B) : M B :=
  fun w =>
    match m w with
    | (Return a, w') => k a w'
    | (Raise e, w') => (Raise e, w')
    end.

(** [try: m  except cls: handler] *)
Definition try_except {A : Type} (m : M A) (cls : exn) (handler : M A) : M A :=
  fun w =>
    match m w with
    | (Return a, w') => (Return a, w')
    | (Raise e, w') => if isinstance e cls then handler w' else (Raise e, w')
    end.

(** [try: m  except: handler] *)
Definition try_except_any {A : Type} (m : M A) (handler : M A) : M A :=
  fun w =>
    match m w with
    | (Return a, w') => (Return a, w')
    | (Raise _, w') => handler w'
    end.

Definition get_self : M LMSServer := fun w => (Return (self w), w).

Definition set_self (s : LMSServer) : M unit :=
  fun w => (Return tt, {| self := s; posted := posted w |}).

Notation "x <- m ;; k" := (bind m (fun x => k))
  (at level 61, m at next level, right associativity).
Notation "m ;; k" := (bind m (fun _ => k))
  (at level 61, right associativity).

Definition set_id (n : Z) (s : LMSServer) : LMSServer :=
  {| host := host s; port := port s; _version := _version s; id := n;
     web := web s; url := url s; players := players s |}.

Definition set__version (v : json) (s : LMSServer) : LMSServer :=
  {| host := host s; port := port s; _version := v; id := id s;
     web := web s; url := url s; players := players s |}.

Definition set_players (ps : list LMSPlayer) (s : LMSServer) : LMSServer :=
  {| host := host s; port := port s; _version := _version s; id := id s;
     web := web s; url := url s; players := Some ps |}.

(** [LMSServer.__init__]: the attributes in the order the source assigns
    them. *)
Definition __init__ (host : string) (port : Z) : outcome LMSServer :=
  match format "http://{h}:{p}/" [("h", FStr host); ("p", FInt port)] with
  | Raise e => Raise e
  | Return web =>
      match format "http://{h}:{p}/jsonrpc.js"
                   [("h", FStr host); ("p", FInt port)] with
      | Raise e => Raise e
      | Return url =>
          Return {| host := host; port := port; _version := JNull; id := 1;
                    web := web; url := url; players := None |}
      end
  end.

(** [LMSServer(host, port)] evaluated when the exchanges [log] have already
    taken place. *)
Definition LMSServer_new (host : string) (port : Z) (log : list exchange)
  : outcome world :=
  match __init__ host port with
  | Return s => Return {| self := s; posted := log |}
  | Raise e => Raise e
  end.

Section Client.

(** The HTTP server: its reply to a POST of [json] to [url], given the
    exchanges that came before. *)
Variable net : list exchange -> string -> payload -> reply.

(** [LMSPlayer.from_index(index, server)], of [LMSTools/player.py]. *)
Variable from_index : Z -> M LMSPlayer.

(** [requests.post(url, json=params, headers=...)] *)
Definition requests_post (url : string) (params : payload) : M response :=
  fun w =>
    let r := net (posted w) url params in
    let w' := {| self := self w;
                 posted := posted w
                           ++ [{| x_url := url; x_json := params; x_reply := r |}] |} in
    match r with
    | Refused => (Raise RequestsConnectionError, w')
    | Answered resp => (Return resp, w')
    end.

(** [response.raise_for_status()]: [HTTPError] for the client and server
    error statuses. *)
Definition raise_for_status (r : response) : M unit :=
  if (400 <=? status_code r) && (status_code r <? 600)
  then raise HTTPError else ret tt.

(** [response.json()] *)
Definition response_json (r : response) : M json :=
  match body r with
  | Some j => ret j
  | None => raise JSONDecodeError
  end.

(** [command.split()]: a method of [str], an [AttributeError] on a list. *)
Definition py_split (v : pyval) : M pyval :=
  match v with
  | PStr s => ret (PList (split_ws s))
  | PList _ => raise AttributeError
  end.

(** The body of [_request], with its parameters bound. *)
Definition _request_body (command player : pyval) : M json :=
  command <- try_except (py_split command) AttributeError (ret command) ;;
  let cmd := (player, command) in
  s <- get_self ;;
  let params := {| p_id := id s; p_method := "slim.request"; p_params := cmd |} in
  response <- requests_post (url s) params ;;
  raise_for_status response ;;
  s <- get_self ;;
  set_self (set_id (id s + 1) s) ;;
  j <- response_json response ;;
  lift (getitem j "result").

(** The binding of the arguments of a call [self._request(...)] to the
    parameters [(command, player="-")]: [TypeError] for a keyword that is not
    a parameter, for a parameter given twice, for a missing [command] and for
    more than two positional arguments. *)
Definition bind_args (args : list pyval) (kwargs : list (string * pyval))
  : outcome (pyval * pyval) :=
  if existsb (fun k => negb (String.eqb k "command" || String.eqb k "player"))
             (map fst kwargs)
  then Raise TypeError
  else
    let player_default :=
      match assoc "player" kwargs with Some p => p | None => PStr "-" end in
    match args with
    | [] => match assoc "command" kwargs with
            | Some c => Return (c, player_default)
            | None => Raise TypeError
            end
    | [c] => match assoc "command" kwargs with
             | Some _ => Raise TypeError
             | None => Return (c, player_default)
             end
    | [c; p] => match assoc "command" kwargs, assoc "player" kwargs with
                | None, None => Return (c, p)
                | _, _ => Raise TypeError
                end
    | _ => Raise TypeError
    end.

(** A call of [self._request] with positional arguments [args] and keyword
    arguments [kwargs]. *)
Definition _request (args : list pyval) (kwargs : list (string * pyval))
  : M json :=
  a <- lift (bind_args args kwargs) ;;
  _request_body (fst a) (snd a).

(** [range(n)]: [n] has to be an [int] ([bool] is one). *)
Definition range (n : json) : outcome (list Z) :=
  match n with
  | JInt k => Return (map Z.of_nat (seq 0 (Z.to_nat k)))
  | JBool b => Return (if b then [0] else [])
  | _ => Raise TypeError
  end.

(** [for x in xs: body(x)] *)
Fixpoint for_each {A : Type} (xs : list A) (body : A -> M unit) : M unit :=
  match xs with
  | [] => ret tt
  | x :: rest => body x ;; for_each rest body
  end.

Definition get_player_count : M json :=
  r <- _request [PStr "player count ?"] [] ;;
  lift (getitem r "_count").

Definition get_players : M (list LMSPlayer) :=
  s <- get_self ;;
  set_self (set_players [] s) ;;
  player_count <- get_player_count ;;
  indices <- lift (range player_count) ;;
  for_each indices (fun i =>
    player <- from_index i ;;
    s <- get_self ;;
    match players s with
    | Some ps => set_self (set_players (ps ++ [player]) s)
    | None => raise AttributeError
    end) ;;
  s <- get_self ;;
  match players s with
  | Some ps => ret ps
  | None => raise AttributeError
  end.

(** [x.get(key, default)]: a method of [dict] only. *)
Definition dict_get (x : json) (key : string) (default : json) : outcome json :=
  match x with
  | JObj kv => Return (match assoc key kv with Some v => v | None => default end)
  | _ => Raise AttributeError
  end.

(** [v.split(sep)]: a method of [str] only. *)
Definition str_split (v : json) (sep : ascii) : outcome (list string) :=
  match v with
  | JStr s => Return (split_on sep s)
  | _ => Raise AttributeError
  end.

(** Whether [s] starts with a byte that goes on a character begun before
    it. *)
Definition continues (s : string) : bool :=
  match s with
  | EmptyString => false
  | String c _ => (128 <=? nat_of_ascii c)%nat && (nat_of_ascii c <? 192)%nat
  end.

(** The characters of a string, each with the bytes that encode it. *)
Fixpoint chars (s : string) : list string :=
  match s with
  | EmptyString => []
  | String c rest =>
      match chars rest with
      | w :: ws =>
          if continues rest then String c w :: ws
          else String c EmptyString :: w :: ws
      | [] => [String c EmptyString]
      end
  end.

(** [for x in v]: the items of a list, the keys of a dictionary, the
    characters of a string; the other JSON values are not iterable. *)
Definition iterate (v : json) : outcome (list json) :=
  match v with
  | JArr l => Return l
  | JObj kv => Return (map (fun e => JStr (fst e)) kv)
  | JStr s => Return (map JStr (chars s))
  | _ => Raise TypeError
  end.

(** [[f(x) for x in xs]], stopping at the first exception. *)
Fixpoint comprehension {A B : Type} (f : A -> outcome B) (xs : list A)
  : outcome (list B) :=
  match xs with
  | [] => Return []
  | x :: rest =>
      match f x with
      | Raise e => Raise e
      | Return y =>
          match comprehension f rest with
          | Raise e => Raise e
          | Return ys => Return (y :: ys)
          end
      end
  end.

(** Line 108 of [server.py]: the list that [get_sync_groups] builds from the
    result of its request. *)
Definition syncgroups_of (groups : json) : outcome (list (list string)) :=
  match dict_get groups "syncgroups_loop" (JObj []) with
  | Raise e => Raise e
  | Return loop =>
      match iterate loop with
      | Raise e => Raise e
      | Return xs =>
          comprehension
            (fun x => match dict_get x "sync_members" (JStr "") with
                      | Raise e => Raise e
                      | Return m => str_split m ","
                      end) xs
      end
  end.

Definition get_sync_groups : M (list (list string)) :=
  groups <- _request [] [("params", PStr "syncgroups ?")] ;;
  syncgroups <- lift (syncgroups_of groups) ;;
  ret syncgroups.

(** The dictionaries of [show_players_sync_status]. *)
Record item : Type := {
  item_name : string;
  item_ref : string;
  sync_index : Z
}.

Record sync_status : Type := {
  group_count : Z;
  player_count : Z;
  status_players : list item
}.

(** [[i for i, g in enumerate(groups) if r in g]], counting from [i]. *)
Fixpoint indices_from (i : Z) (r : string) (groups : list (list string))
  : list Z :=
  match groups with
  | [] => []
  | g :: rest =>
      if existsb (String.eqb r) g then i :: indices_from (i + 1) r rest
      else indices_from (i + 1) r rest
  end.

Definition item_of (groups : list (list string)) (player : LMSPlayer) : item :=
  let index := indices_from 0 (ref player) groups in
  {| item_name := name player;
     item_ref := ref player;
     sync_index := match index with
                   | i :: _ => i
                   | [] => -1
                   end |}.

(** Lines 144 to 162 of [server.py]. *)
Definition build_sync_status (players : list LMSPlayer)
           (groups : list (list string)) : sync_status :=
  {| group_count := Z.of_nat (List.length groups);
     player_count := Z.of_nat (List.length players);
     status_players := map (item_of groups) players |}.

Definition show_players_sync_status : M sync_status :=
  players <- get_players ;;
  groups <- get_sync_groups ;;
  ret (build_sync_status players groups).

Definition sync (master slave : string) : M unit :=
  _request [] [("player", PStr master); ("params", PList ["sync"; slave])] ;;
  ret tt.

Definition ping : M bool :=
  try_except
    (_request [] [("params", PStr "ping")] ;;
     ret true)
    LMSConnectionError
    (ret false).

(** [x is None] *)
Definition is_None (v : json) : bool :=
  match v with JNull => true | _ => false end.

Definition version : M json :=
  s <- get_self ;;
  (if is_None (_version s)
   then r <- _request [] [("params", PStr "version ?")] ;;
        v <- lift (getitem r "_version") ;;
        s <- get_self ;;
        set_self (set__version v s)
   else ret tt) ;;
  s <- get_self ;;
  ret (_version s).

(** [rescan]: a function that ends without [return] gives [None]. *)
Definition rescan (mode : string) : M json :=
  is_scanning <-
    try_except_any
      (r <- _request [PStr "rescan ?"] [] ;;
       v <- lift (getitem r "_rescan") ;;
       ret (truthy v))
      (ret true) ;;
  if negb is_scanning
  then if String.eqb mode "fast"
       then _request [] [("params", PStr "rescan")]
       else if String.eqb mode "full"
       then _request [] [("params", PStr "wipecache")]
       else if String.eqb mode "playlists"
       then _request [] [("params", PStr "rescan playlists")]
       else ret JNull
  else ret (JStr "").

Definition rescanprogress : M json :=
  r <- _request [] [("params", PStr "rescanprogress")] ;;
  lift (getitem r "_rescan").

(** A caller that dispatches the calls of [calls] one after the other on the
    same connection and goes on whatever the outcome of each. *)
Fixpoint dispatch_all (calls : list (pyval * pyval)) : M (list (outcome json)) :=
  match calls with
  | [] => ret []
  | (command, player) :: rest =>
      fun w =>
        let (r, w') := _request [command; player] [] w in
        match dispatch_all rest w' with
        | (Return rs, w'') => (Return (r :: rs), w'')
        | (Raise e, w'') => (Raise e, w'')
        end
  end.

(** *** Vocabulary of the statements about [_request] *)

(** The command as [_request] sends it. *)
Definition tokens (command : pyval) : pyval :=
  match command with
  | PStr s => PList (split_ws s)
  | PList l => PList l
  end.

(** The payload that a dispatch of [command] to [player] posts from [w], the
    reply of the server to it, and the world once it is posted. *)
Definition payload_of (w : world) (command player : pyval) : payload :=
  {| p_id := id (self w);
     p_method := "slim.request";
     p_params := (player, tokens command) |}.

Definition reply_of (w : world) (command player : pyval) : reply :=
  net (posted w) (url (self w)) (payload_of w command player).

Definition after_post (w : world) (command player : pyval) : world :=
  {| self := self w;
     posted := posted w
               ++ [{| x_url := url (self w);
                      x_json := payload_of w command player;
                      x_reply := reply_of w command player |}] |}.

(** [self.id += 1] *)
Definition bump (w : world) : world :=
  {| self := set_id (id (self w) + 1) (self w); posted := posted w |}.

Definition with_players (ps : list LMSPlayer) (w : world) : world :=
  {| self := set_players ps (self w); posted := posted w |}.

(** The attributes of the connection other than [id] are those of [s]. *)
Definition same_attributes (s s' : LMSServer) : Prop :=
  host s' = host s /\ port s' = port s /\ web s' = web s /\ url s' = url s
  /\ _version s' = _version s /\ players s' = players s.

(** The statuses for which [raise_for_status] raises. *)
Definition is_error (r : response) : bool :=
  (400 <=? status_code r) && (status_code r <? 600).

(** The replies after which [_request] goes on to [self.id += 1]. *)
Definition accepted (r : reply) : bool :=
  match r with
  | Refused => false
  | Answered resp => negb (is_error resp)
  end.

(** The ids of successive requests whose replies are [rs], the first one
    carrying [i]: the id moves on after an accepted reply only. *)
Fixpoint ids_from (i : Z) (rs : list reply) : list Z :=
  match rs with
  | [] => []
  | r :: rest => i :: ids_from (if accepted r then i + 1 else i) rest
  end.

(** The value of the counter after these requests. *)
Fixpoint next_id (i : Z) (rs : list reply) : Z :=
  match rs with
  | [] => i
  | r :: rest => next_id (if accepted r then i + 1 else i) rest
  end.

Definition request_ids (xs : list exchange) : list Z :=
  map (fun x => p_id (x_json x)) xs.

(** The calls of the factory made by the loop of [get_players] on the indices
    [is]: each call starts in the world that the one before left, with its
    player appended to [self.players]. *)
Inductive factory_calls : list Z -> world -> list LMSPlayer -> world -> Prop :=
| calls_nil (w : world) : factory_calls [] w [] w
| calls_cons (i : Z) (rest : list Z) (w w1 w2 : world) (p : LMSPlayer)
             (acc ps : list LMSPlayer) :
    from_index i w = (Return p, w1) ->
    players (self w1) = Some acc ->
    factory_calls rest (with_players (acc ++ [p]) w1) ps w2 ->
    factory_calls (i :: rest) w (p :: ps) w2.

End Client.

End Server.

(** ** [LMSTools/utils.py]: the URL helper

    [LMSUtils.quote] and [LMSUtils.unquote] hand their argument to
    [urllib.parse.quote] and [urllib.parse.unquote] (the module that the
    [import] at the head of the file binds to [urlmodule] under Python 3).
    Both are modelled here after CPython with their default arguments:
    [quote(string, safe='/', encoding='utf-8', errors='strict')] and
    [unquote(string, encoding='utf-8', errors='replace')].  A [str] is the list
    of its code points, a [bytes] object the list of its bytes. *)

Module Utils.

Local Open Scope list_scope.

Definition text : Type := list Z.
Definition bytes : Type := list Z.

(** The code points of a [str]. *)
Definition is_code_point (c : Z) : Prop := 0 <= c < 0x110000.

Definition is_surrogate (c : Z) : bool := (0xD800 <=? c) && (c <=? 0xDFFF).

(** The Unicode scalar values: the code points that are not surrogates. *)
Definition scalar_value (c : Z) : Prop :=
  is_code_point c /\ is_surrogate c = false.

(** [str.encode('utf-8', 'strict')], one character. *)
Definition utf8_encode_char (ch : Z) : outcome bytes :=
  if ch <? 0x80 then Return [ch]
  else if ch <? 0x800 then
    Return [Z.lor 0xC0 (Z.shiftr ch 6); Z.lor 0x80 (Z.land ch 0x3F)]
  else if is_surrogate ch then Raise UnicodeEncodeError
  else if ch <? 0x10000 then
    Return [Z.lor 0xE0 (Z.shiftr ch 12);
            Z.lor 0x80 (Z.land (Z.shiftr ch 6) 0x3F);
            Z.lor 0x80 (Z.land ch 0x3F)]
  else
    Return [Z.lor 0xF0 (Z.shiftr ch 18);
            Z.lor 0x80 (Z.land (Z.shiftr ch 12) 0x3F);
            Z.lor 0x80 (Z.land (Z.shiftr ch 6) 0x3F);
            Z.lor 0x80 (Z.land ch 0x3F)].

Fixpoint utf8_encode (s : text) : outcome bytes :=
  match s with
  | [] => Return []
  | ch :: rest =>
      match utf8_encode_char ch with
      | Raise e => Raise e
      | Return bs =>
          match utf8_encode rest with
          | Raise e => Raise e
          | Return out => Return (bs ++ out)
          end
      end
  end.

Definition is_continuation (b : Z) : bool := (0x80 <=? b) && (b <? 0xC0).

(** U+FFFD, what the [replace] error handler puts for a malformed sequence. *)
Definition replacement : Z := 0xFFFD.

(** [bytes.decode('utf-8', 'replace')]: one replacement character for an
    invalid start byte, for the valid part of a sequence broken by a byte that
    is not the continuation it needs (decoding resumes at that byte), and for
    a sequence cut short by the end of the data. *)
Fixpoint utf8_decode (bs : bytes) : text :=
  match bs with
  | [] => []
  | ch :: r1 =>
      if ch <? 0x80 then ch :: utf8_decode r1
      else if ch <? 0xC2 then replacement :: utf8_decode r1
      else if ch <? 0xE0 then
        match r1 with
        | [] => [replacement]
        | ch2 :: r2 =>
            if is_continuation ch2
            then (Z.shiftl ch 6 + ch2 - (Z.shiftl 0xC0 6 + 0x80)) :: utf8_decode r2
            else replacement :: utf8_decode r1
        end
      else if ch <? 0xF0 then
        match r1 with
        | [] => [replacement]
        | ch2 :: r2 =>
            if negb (is_continuation ch2)
               || (if ch2 <? 0xA0 then ch =? 0xE0 else ch =? 0xED)
            then replacement :: utf8_decode r1
            else
              match r2 with
              | [] => [replacement]
              | ch3 :: r3 =>
                  if is_continuation ch3
                  then (Z.shiftl ch 12 + Z.shiftl ch2 6 + ch3
                        - (Z.shiftl 0xE0 12 + Z.shiftl 0x80 6 + 0x80))
                       :: utf8_decode r3
                  else replacement :: utf8_decode r2
              end
        end
      else if ch <? 0xF5 then
        match r1 with
        | [] => [replacement]
        | ch2 :: r2 =>
            if negb (is_continuation ch2)
               || (if ch2 <? 0x90 then ch =? 0xF0 else ch =? 0xF4)
            then replacement :: utf8_decode r1
            else
              match r2 with
              | [] => [replacement]
              | ch3 :: r3 =>
                  if is_continuation ch3
                  then
                    match r3 with
                    | [] => [replacement]
                    | ch4 :: r4 =>
                        if is_continuation ch4
                        then (Z.shiftl ch 18 + Z.shiftl ch2 12 + Z.shiftl ch3 6 + ch4
                              - (Z.shiftl 0xF0 18 + Z.shiftl 0x80 12
                                 + Z.shiftl 0x80 6 + 0x80))
                             :: utf8_decode r4
                        else replacement :: utf8_decode r3
                    end
                  else replacement :: utf8_decode r2
              end
        end
      else replacement :: utf8_decode r1
  end.

(** [_ALWAYS_SAFE]: the letters, the digits and [_.-~]. *)
Definition always_safe (b : Z) : bool :=
  ((65 <=? b) && (b <=? 90)) || ((97 <=? b) && (b <=? 122))
  || ((48 <=? b) && (b <=? 57))
  || (b =? 95) || (b =? 46) || (b =? 45) || (b =? 126).

(** The safe bytes of [quote]: [_ALWAYS_SAFE] and the default [safe='/']. *)
Definition is_safe (b : Z) : bool := always_safe b || (b =? 47).

(** A digit of ['%{:02X}'.format(b)]. *)
Definition hex_digit (n : Z) : Z := if n <? 10 then 48 + n else 55 + n.

(** The quoter of [quote_from_bytes]: [chr(b)] for a safe byte, otherwise
    a percent sign and two upper-case hexadecimal digits. *)
Definition quoter (b : Z) : text :=
  if is_safe b then [b] else [37; hex_digit (b / 16); hex_digit (b mod 16)].

Definition quote_from_bytes (bs : bytes) : text := flat_map quoter bs.

Definition urllib_quote (string : text) : outcome text :=
  match utf8_encode string with
  | Raise e => Raise e
  | Return bs => Return (quote_from_bytes bs)
  end.

(** The keys of [_hextobyte] are the pairs of hexadecimal digits of either
    case. *)
Definition hex_value (c : Z) : option Z :=
  if (48 <=? c) && (c <=? 57) then Some (c - 48)
  else if (65 <=? c) && (c <=? 70) then Some (c - 55)
  else if (97 <=? c) && (c <=? 102) then Some (c - 87)
  else None.

(** [unquote_to_bytes] on ASCII text: a percent sign followed by two
    hexadecimal digits is one byte; any other percent sign stays. *)
Fixpoint unquote_to_bytes (s : text) : bytes :=
  match s with
  | [] => []
  | c :: rest =>
      if c =? 37
      then match rest with
           | h :: l :: rest' =>
               match hex_value h, hex_value l with
               | Some a, Some b => (16 * a + b) :: unquote_to_bytes rest'
               | _, _ => 37 :: unquote_to_bytes rest
               end
           | _ => 37 :: unquote_to_bytes rest
           end
      else c :: unquote_to_bytes rest
  end.

(** The loop of [unquote] over [_asciire.split(string)]: each maximal run of
    ASCII characters is unquoted to bytes and decoded, the other characters
    are kept.  [run] is the ASCII run being read. *)
Fixpoint unquote_runs (s : text) (run : text) : text :=
  match s with
  | [] => utf8_decode (unquote_to_bytes run)
  | c :: rest =>
      if c <? 0x80 then unquote_runs rest (run ++ [c])
      else utf8_decode (unquote_to_bytes run) ++ c :: unquote_runs rest []
  end.

Definition urllib_unquote (string : text) : text :=
  if existsb (Z.eqb 37) string then unquote_runs string [] else string.

(** [LMSUtils.quote] and [LMSUtils.unquote] *)
Definition quote (text : text) : outcome Utils.text := urllib_quote text.

Definition unquote (text : text) : Utils.text := urllib_unquote text.

End Utils.

(** ** Stub servers and a fresh connection, to run the model on *)

Module Stub.

Import Server.

Definition ok (j : json) : reply :=
  Answered {| status_code := 200; body := Some j |}.

(** A server that answers the commands of the client. *)
Definition lms (_ : list exchange) (_ : string) (p : payload) : reply :=
  match snd (p_params p) with
  | PList ["player"; "count"; "?"] =>
      ok (JObj [("result", JObj [("_count", JInt 3)])])
  | PList ["rescan"; "?"] =>
      ok (JObj [("result", JObj [("_rescan", JInt 0)])])
  | PList ["version"; "?"] =>
      ok (JObj [("result", JObj [("_version", JStr "7.9.0")])])
  | PList ["syncgroups"; "?"] =>
      ok (JObj [("result",
                 JObj [("syncgroups_loop",
                        JArr [JObj [("sync_members", JStr "AA:AA,BB:BB")]])])])
  | _ => ok (JObj [("result", JObj [])])
  end.

(** A server that answers every request with status 500. *)
Definition failing (_ : list exchange) (_ : string) (_ : payload) : reply :=
  Answered {| status_code := 500; body := None |}.

(** A server that answers every request with status 200 and a body that is
    not JSON. *)
Definition garbled (_ : list exchange) (_ : string) (_ : payload) : reply :=
  Answered {| status_code := 200; body := None |}.

(** A server that answers every request with status 200 and the body [[]]. *)
Definition listing (_ : list exchange) (_ : string) (_ : payload) : reply :=
  Answered {| status_code := 200; body := Some (JArr []) |}.

(** A server that answers every request with status 200 and the body [{}]. *)
Definition hollow (_ : list exchange) (_ : string) (_ : payload) : reply :=
  ok (JObj []).

(** A factory whose handle tells the index it was made from. *)
Definition numbered (i : Z) : M LMSPlayer :=
  ret {| name := "Player " ++ str_of_int i; ref := str_of_int i |}.

(** [LMSServer("localhost", 9000)] before any exchange. *)
Definition fresh : world :=
  {| self := {| host := "localhost"; port := 9000; _version := JNull; id := 1;
                web := "http://localhost:9000/";
                url := "http://localhost:9000/jsonrpc.js";
                players := None |};
     posted := [] |}.

Definition ping_call : pyval * pyval := (PStr "ping", PStr "-").

(** A server that reports [count] as its number of players. *)
Definition counting (count : json) (_ : list exchange) (_ : string)
           (_ : payload) : reply :=
  ok (JObj [("result", JObj [("_count", count)])]).

(** A server that refuses every connection. *)
Definition down (_ : list exchange) (_ : string) (_ : payload) : reply :=
  Refused.

(** A server that reports a scan in progress. *)
Definition scanning (_ : list exchange) (_ : string) (_ : payload) : reply :=
  ok (JObj [("result", JObj [("_rescan", JInt 1)])]).

(** A factory that fails on index 1. *)
Definition broken (i : Z) : M LMSPlayer :=
  if i =? 1 then raise KeyError else numbered i.

End Stub.

(** * Properties of the server client *)

Import Server.

Local Open Scope list_scope.

Section ServerFacts.

Variable net : list exchange -> string -> payload -> reply.
Variable from_index : Z -> M LMSPlayer.

(** ** Calls of [_request] *)

(** No parameter of [_request] is called [params]: a call that passes this
    keyword raises [TypeError] before the body of [_request] runs. *)
Lemma _request_params (kwargs : list (string * pyval)) (v : pyval) (w : world) :
  _request net [] (kwargs ++ [("params", v)]) w = (Raise TypeError, w).
Proof.
  unfold _request, bind, lift, bind_args.
  rewrite map_app, existsb_app. simpl.
  now rewrite orb_true_r.
Qed.

Lemma _request_only_params (v : pyval) (w : world) :
  _request net [] [("params", v)] w = (Raise TypeError, w).
Proof. exact (_request_params [] v w). Qed.

(** A call with both arguments in position runs the body. *)
Lemma _request_positional (command player : pyval) (w : world) :
  _request net [command; player] [] w = _request_body net command player w.
Proof. reflexivity. Qed.

Lemma _request_default_player (command : pyval) (w : world) :
  _request net [command] [] w = _request_body net command (PStr "-") w.
Proof. reflexivity. Qed.

(** The body of [_request], case by case on the reply of the server. *)
Lemma _request_body_eq (command player : pyval) (w : world) :
  _request_body net command player w =
  match reply_of net w command player with
  | Refused => (Raise RequestsConnectionError, after_post net w command player)
  | Answered r =>
      if is_error r
      then (Raise HTTPError, after_post net w command player)
      else match body r with
           | None => (Raise JSONDecodeError, bump (after_post net w command player))
           | Some j => (getitem j "result", bump (after_post net w command player))
           end
  end.
Proof.
  unfold _request_body, bind, try_except, requests_post, after_post, reply_of,
    payload_of.
  destruct command as [s | l]; simpl;
    (match goal with |- context [net ?a ?b ?c] => destruct (net a b c) as [| r] end;
     [ reflexivity | ]);
    unfold raise_for_status, is_error;
    destruct ((400 <=? status_code r) && (status_code r <? 600)); simpl;
    try reflexivity;
    unfold response_json; destruct (body r); reflexivity.
Qed.

(** ** Construction *)

(** C9: [LMSServer(host, port)] sets [url] to the host and the port between
    [http://], [:] and [/jsonrpc.js], and [web] to the same up to the slash;
    the construction succeeds and leaves the log of exchanges as it was. *)
Theorem init_urls (h : string) (p : Z) (log : list exchange) :
  exists s : LMSServer,
    __init__ h p = Return s
    /\ url s = ("http://" ++ h ++ ":" ++ str_of_int p ++ "/jsonrpc.js")%string
    /\ web s = ("http://" ++ h ++ ":" ++ str_of_int p ++ "/")%string
    /\ LMSServer_new h p log = Return {| self := s; posted := log |}.
Proof.
  unfold LMSServer_new, __init__, format. simpl.
  eexists. split; [ reflexivity | ]. simpl. auto.
Qed.

(** A new connection: the counter is 1, nothing is cached. *)
Lemma new_connection (h : string) (p : Z) (log : list exchange) :
  exists w : world,
    LMSServer_new h p log = Return w
    /\ id (self w) = 1 /\ posted w = log /\ _version (self w) = JNull
    /\ players (self w) = None.
Proof.
  unfold LMSServer_new, __init__, format. simpl.
  eexists. split; [ reflexivity | ]. simpl. auto.
Qed.

(** ** [ping] *)

(** C1: [ping] passes [params="ping"] to [_request], which has no such
    parameter: whatever the server does, [ping] raises [TypeError], and no
    request is sent. *)
Theorem ping_raises_TypeError (w : world) :
  ping net w = (Raise TypeError, w).
Proof.
  unfold ping, try_except, bind.
  rewrite _request_only_params. reflexivity.
Qed.

(** ** The request ids *)

Lemma _request_step (command player : pyval) (w : world) :
  exists (r : outcome json) (w' : world) (x : exchange),
    _request net [command; player] [] w = (r, w')
    /\ posted w' = posted w ++ [x]
    /\ p_id (x_json x) = id (self w)
    /\ id (self w') = if accepted (x_reply x) then id (self w) + 1
                      else id (self w).
Proof.
  rewrite _request_positional, _request_body_eq.
  destruct (reply_of net w command player) as [| r] eqn:E.
  - do 3 eexists. split; [ reflexivity | ].
    simpl. split; [ reflexivity | ]. simpl. rewrite E. auto.
  - destruct (is_error r) eqn:Er.
    + do 3 eexists. split; [ reflexivity | ].
      simpl. split; [ reflexivity | ]. simpl. rewrite E. simpl. rewrite Er. auto.
    + destruct (body r) as [j |];
        (do 3 eexists; split; [ reflexivity | ];
         simpl; split; [ reflexivity | ]; simpl; rewrite E; simpl; rewrite Er; auto).
Qed.

Lemma ids_from_app (rs rs' : list reply) : forall i : Z,
  ids_from i (rs ++ rs') = ids_from i rs ++ ids_from (next_id i rs) rs'.
Proof.
  induction rs as [| r rs IH]; intros i; simpl; [ reflexivity | ].
  now rewrite IH.
Qed.

Lemma dispatch_all_ids (calls : list (pyval * pyval)) : forall w : world,
  exists (rs : list (outcome json)) (w' : world) (xs : list exchange),
    dispatch_all net calls w = (Return rs, w')
    /\ posted w' = posted w ++ xs
    /\ List.length xs = List.length calls
    /\ request_ids xs = ids_from (id (self w)) (map x_reply xs)
    /\ id (self w') = next_id (id (self w)) (map x_reply xs).
Proof.
  induction calls as [| [command player] calls IH]; intros w.
  - exists [], w, []. simpl. rewrite app_nil_r. auto.
  - destruct (_request_step command player w) as (r & w1 & x & E & Hp & Hi & Hn).
    destruct (IH w1) as (rs & w2 & xs & E2 & Hp2 & Hl & Hids & Hn2).
    exists (r :: rs), w2, (x :: xs).
    simpl. rewrite E, E2. split; [ reflexivity | ].
    split; [ rewrite Hp2, Hp, <- app_assoc; reflexivity | ].
    split; [ now rewrite Hl | ].
    rewrite Hi. rewrite <- Hn. split; [ now f_equal | assumption ].
Qed.

(** C2, amended: on a new connection, [N] dispatches in sequence post [N]
    requests; the first carries id 1 and each next one the id of the one
    before, plus one when that one was answered with a status that is not a
    client or server error, and unchanged when it was refused or answered with
    such an error; the counter ends at the id the next request would carry. *)
Theorem dispatch_request_ids (h : string) (p : Z) (calls : list (pyval * pyval)) :
  exists (w : world) (rs : list (outcome json)) (w' : world),
    LMSServer_new h p [] = Return w
    /\ dispatch_all net calls w = (Return rs, w')
    /\ List.length (posted w') = List.length calls
    /\ request_ids (posted w') = ids_from 1 (map x_reply (posted w'))
    /\ id (self w') = next_id 1 (map x_reply (posted w')).
Proof.
  destruct (new_connection h p []) as (w & Hw & Hid & Hlog & _).
  destruct (dispatch_all_ids calls w) as (rs & w' & xs & E & Hp & Hl & Hids & Hn).
  rewrite Hlog in Hp. simpl in Hp. subst xs.
  exists w, rs, w'. rewrite Hid in *. auto.
Qed.

(** When every reply is accepted the ids are [i], [i + 1], ... *)
Lemma ids_from_accepted (rs : list reply) : forall i : Z,
  forallb (accepted) rs = true ->
  ids_from i rs = map (fun k => i + Z.of_nat k) (seq 0 (List.length rs)).
Proof.
  induction rs as [| r rs IH]; intros i H; simpl in *; [ reflexivity | ].
  apply andb_prop in H as [Hr Hrs]. rewrite Hr, (IH _ Hrs).
  f_equal; [ lia | ].
  rewrite <- seq_shift, map_map. apply map_ext. intros k. lia.
Qed.

(** ** The outcomes of a dispatch *)

(** C3, amended: when the server answers with a client or server error status
    (400 to 599) the dispatch fails whatever the body is, which it does not
    read (the exception is the HTTP client's [HTTPError], and the counter
    stays); for any other status the counter moves on and then a body that is
    not JSON raises the decoder's error, a body that is JSON but not an object
    raises [TypeError], an object without [result] raises [KeyError], and an
    object with [result] gives the value at that key. *)
Theorem request_outcomes (command player : pyval) (w : world) (r : response) :
  reply_of net w command player = Answered r ->
  let w1 := after_post net w command player in
  (is_error r = true ->
   _request net [command; player] [] w = (Raise HTTPError, w1))
  /\ (is_error r = false -> body r = None ->
      _request net [command; player] [] w = (Raise JSONDecodeError, bump w1))
  /\ (is_error r = false ->
      forall j : json,
        body r = Some j -> (forall kv, j <> JObj kv) ->
        _request net [command; player] [] w = (Raise TypeError, bump w1))
  /\ (is_error r = false ->
      forall kv : list (string * json),
        body r = Some (JObj kv) -> assoc "result" kv = None ->
        _request net [command; player] [] w = (Raise KeyError, bump w1))
  /\ (is_error r = false ->
      forall (kv : list (string * json)) (v : json),
        body r = Some (JObj kv) -> assoc "result" kv = Some v ->
        _request net [command; player] [] w = (Return v, bump w1)).
Proof.
  intros E w1. rewrite _request_positional, _request_body_eq, E.
  repeat split.
  - intros ->. reflexivity.
  - intros -> ->. reflexivity.
  - intros -> j -> Hj. destruct j; try reflexivity. now destruct (Hj kv).
  - intros -> kv -> Hk. simpl. now rewrite Hk.
  - intros -> kv v -> Hk. simpl. now rewrite Hk.
Qed.

(** ** Sync groups *)

(** C4: [get_sync_groups] passes [params="syncgroups ?"] to [_request]: it
    raises [TypeError] and sends nothing, whatever the server would answer. *)
Theorem get_sync_groups_raises_TypeError (w : world) :
  get_sync_groups net w = (Raise TypeError, w).
Proof.
  unfold get_sync_groups, bind. now rewrite _request_only_params.
Qed.

(** The list that line 108 builds from a result whose [syncgroups_loop] is a
    list of objects: one group per object, its [sync_members] (the empty
    string when absent) split at the commas. *)
Lemma syncgroups_of_objects (kv : list (string * json))
      (entries : list (list (string * json))) (members : list string) :
  assoc "syncgroups_loop" kv = Some (JArr (map JObj entries)) ->
  Forall2 (fun e m => match assoc "sync_members" e with
                      | Some v => v = JStr m
                      | None => m = ""%string
                      end) entries members ->
  syncgroups_of (JObj kv) = Return (map (split_on ",") members).
Proof.
  intros Hk H. unfold syncgroups_of. simpl. rewrite Hk. simpl. clear Hk.
  induction H as [| e m entries members He _ IH]; simpl; [ reflexivity | ].
  rewrite IH.
  destruct (assoc "sync_members" e) as [v |]; subst; reflexivity.
Qed.

(** ** The sync status report *)

(** C5: [show_players_sync_status] calls [get_sync_groups] once the players
    are listed, so it never returns a report: it raises [TypeError], or what
    [get_players] raised. *)
Theorem show_players_sync_status_raises (w : world) :
  exists (e : exn) (w' : world),
    show_players_sync_status net from_index w = (Raise e, w')
    /\ (e = TypeError
        \/ fst (get_players net from_index w) = Raise e).
Proof.
  unfold show_players_sync_status, bind.
  destruct (get_players net from_index w) as [[ps | e] w1].
  - unfold get_sync_groups, bind. rewrite _request_only_params. eauto.
  - simpl. eauto.
Qed.

Lemma indices_from_lower (r : string) (groups : list (list string)) :
  forall i k : Z, In k (indices_from i r groups) -> i <= k.
Proof.
  induction groups as [| g groups IH]; intros i k H; simpl in H; [ easy | ].
  destruct (existsb (String.eqb r) g).
  - destruct H as [<- | H]; [ lia | ]. apply IH in H. lia.
  - apply IH in H. lia.
Qed.

(** The index that lines 150 to 154 give a player: the position of the first
    group that holds its reference, or -1 when none does. *)
Lemma item_of_first_group (groups : list (list string)) (p : LMSPlayer) :
  (sync_index (item_of groups p) = -1
   /\ forall g, In g groups -> existsb (String.eqb (ref p)) g = false)
  \/ (exists (before : list (list string)) (g : list string)
             (after : list (list string)),
         groups = before ++ g :: after
         /\ sync_index (item_of groups p) = Z.of_nat (List.length before)
         /\ existsb (String.eqb (ref p)) g = true
         /\ forall g', In g' before -> existsb (String.eqb (ref p)) g' = false).
Proof.
  unfold item_of. simpl.
  assert (G : forall i : Z,
    (indices_from i (ref p) groups = []
     /\ forall g, In g groups -> existsb (String.eqb (ref p)) g = false)
    \/ (exists before g after rest,
          groups = before ++ g :: after
          /\ indices_from i (ref p) groups
             = (i + Z.of_nat (List.length before)) :: rest
          /\ existsb (String.eqb (ref p)) g = true
          /\ forall g', In g' before ->
                        existsb (String.eqb (ref p)) g' = false)).
  { induction groups as [| g groups IH]; intros i; simpl.
    - left. split; [ reflexivity | easy ].
    - destruct (existsb (String.eqb (ref p)) g) eqn:Eg.
      + right. exists [], g, groups. eexists. simpl.
        split; [ reflexivity | ]. split; [ f_equal; lia | ].
        split; [ assumption | easy ].
      + destruct (IH (i + 1)) as [[Hn Hall] | (b & g0 & a & rest & -> & Hi & Hg & Hb)].
        * left. split; [ assumption | ].
          intros g' [<- | Hin]; auto.
        * right. exists (g :: b), g0, a, rest. simpl.
          split; [ reflexivity | ]. split; [ rewrite Hi; f_equal; lia | ].
          split; [ assumption | ].
          intros g' [<- | Hin]; auto. }
  destruct (G 0) as [[Hn Hall] | (b & g & a & rest & -> & Hi & Hg & Hb)].
  - left. rewrite Hn. auto.
  - right. exists b, g, a. rewrite Hi. auto.
Qed.

Lemma build_sync_status_counts (ps : list LMSPlayer) (groups : list (list string)) :
  group_count (build_sync_status ps groups) = Z.of_nat (List.length groups)
  /\ player_count (build_sync_status ps groups) = Z.of_nat (List.length ps)
  /\ status_players (build_sync_status ps groups) = map (item_of groups) ps.
Proof. repeat split. Qed.

(** ** [version] *)

(** C6: on a connection that has no cached version, a read of [version]
    passes [params="version ?"] to [_request]: it raises [TypeError], sends
    nothing and caches nothing. *)
Theorem version_raises_TypeError (w : world) :
  _version (self w) = JNull ->
  version net w = (Raise TypeError, w).
Proof.
  intros H. unfold version, bind, get_self. rewrite H.
  cbn [is_None]. now rewrite _request_only_params.
Qed.

(** No read of [version] sends a request. *)
Lemma version_never_posts (w : world) :
  posted (snd (version net w)) = posted w.
Proof.
  unfold version, bind, get_self.
  destruct (is_None (_version (self w))); [ | reflexivity ].
  now rewrite _request_only_params.
Qed.

(** A read when a version is cached returns it and sends nothing. *)
Lemma version_cached (w : world) :
  is_None (_version (self w)) = false ->
  version net w = (Return (_version (self w)), w).
Proof.
  intros H. unfold version, bind, get_self. now rewrite H.
Qed.

(** ** [rescan] *)

(** C7: [rescan("full")] posts one request, the probe [rescan ?], and nothing
    after it; it returns the empty string, or raises [TypeError] where it
    passes [params="wipecache"] to [_request]. *)
Theorem rescan_full_posts_probe_only (w : world) :
  posted (snd (rescan net "full" w))
  = posted (after_post net w (PStr "rescan ?") (PStr "-"))
  /\ (fst (rescan net "full" w) = Return (JStr "")
      \/ fst (rescan net "full" w) = Raise TypeError).
Proof.
  unfold rescan, bind, try_except_any.
  rewrite _request_default_player, _request_body_eq.
  destruct (reply_of net w (PStr "rescan ?") (PStr "-")) as [| r];
    [ simpl; auto | ].
  destruct (is_error r); [ simpl; auto | ].
  destruct (body r) as [j |]; [ | simpl; auto ].
  destruct (getitem j "result") as [res | e]; [ | simpl; auto ].
  unfold lift. destruct (getitem res "_rescan") as [v | e]; [ | simpl; auto ].
  unfold ret. destruct (truthy v); simpl; auto.
Qed.

(** When the probe reports no scan in progress, the command is not sent. *)
Lemma rescan_full_not_scanning (w : world) (r : response) (j res v : json) :
  reply_of net w (PStr "rescan ?") (PStr "-") = Answered r ->
  is_error r = false -> body r = Some j ->
  getitem j "result" = Return res -> getitem res "_rescan" = Return v ->
  truthy v = false ->
  rescan net "full" w
  = (Raise TypeError, bump (after_post net w (PStr "rescan ?") (PStr "-"))).
Proof.
  intros E He Hb Hj Hres Hv.
  unfold rescan, bind, try_except_any.
  rewrite _request_default_player, _request_body_eq, E, He, Hb, Hj.
  unfold lift. rewrite Hres. unfold ret. rewrite Hv. reflexivity.
Qed.

(** ** Players *)

Lemma reply_of_with_players (ps : list LMSPlayer) (w : world)
      (command player : pyval) :
  reply_of net (with_players ps w) command player = reply_of net w command player.
Proof. reflexivity. Qed.

(** A dispatch whose reply is an object with a [result]. *)
Lemma _request_body_result (command player : pyval) (w : world) (r : response)
      (j res : json) :
  reply_of net w command player = Answered r ->
  is_error r = false -> body r = Some j -> getitem j "result" = Return res ->
  _request_body net command player w
  = (Return res, bump (after_post net w command player)).
Proof.
  intros E He Hb Hj. now rewrite _request_body_eq, E, He, Hb, Hj.
Qed.

Lemma get_player_count_result (w : world) (r : response) (j res count : json) :
  reply_of net w (PStr "player count ?") (PStr "-") = Answered r ->
  is_error r = false -> body r = Some j -> getitem j "result" = Return res ->
  getitem res "_count" = Return count ->
  get_player_count net w
  = (Return count, bump (after_post net w (PStr "player count ?") (PStr "-"))).
Proof.
  intros E He Hb Hj Hc. unfold get_player_count, bind.
  rewrite _request_default_player, (_request_body_result E He Hb Hj).
  unfold lift. now rewrite Hc.
Qed.

(** The loop of [get_players] over the indices [is], when the factory returns
    a handle for each of them and leaves [self.players] alone. *)
Lemma for_each_factory (indices : list Z) :
  forall (w : world) (acc : list LMSPlayer),
    players (self w) = Some acc ->
    (forall (i : Z) (w0 : world), In i indices ->
       exists (p : LMSPlayer) (w1 : world),
         from_index i w0 = (Return p, w1)
         /\ players (self w1) = players (self w0)) ->
    exists (ps : list LMSPlayer) (w' : world),
      for_each indices
        (fun i =>
           player <- from_index i ;;
           s <- get_self ;;
           match players s with
           | Some ps => set_self (set_players (ps ++ [player]) s)
           | None => raise AttributeError
           end) w = (Return tt, w')
      /\ players (self w') = Some (acc ++ ps)
      /\ List.length ps = List.length indices
      /\ factory_calls from_index indices w ps w'.
Proof.
  induction indices as [| i indices IH]; intros w acc Hacc Hf.
  - exists [], w. simpl. rewrite app_nil_r. repeat split; auto. constructor.
  - destruct (Hf i w (or_introl eq_refl)) as (p & w1 & E & Hp).
    rewrite Hacc in Hp.
    destruct (IH (with_players (acc ++ [p]) w1) (acc ++ [p]) eq_refl)
      as (ps & w' & E' & Hps & Hl & Hc).
    { intros k w0 Hk. apply Hf. now right. }
    exists (p :: ps), w'.
    split.
    { simpl. unfold bind at 1 2. rewrite E. unfold get_self at 1. unfold bind at 1.
      rewrite Hp. exact E'. }
    split; [ rewrite Hps, <- app_assoc; reflexivity | ].
    split; [ simpl; now rewrite Hl | ].
    econstructor; eassumption.
Qed.

(** C8: when the dispatch of [player count ?] returns a result whose [_count]
    is [C], [get_player_count] returns [C]; and when moreover the factory
    returns a handle for every index below [C] without touching
    [self.players], [get_players] returns [C] handles, those that the factory
    returns when called on 0, 1, ..., C-1 in this order, each call starting
    where the one before ended; the list is the new value of [self.players],
    which was emptied first. *)
Theorem get_players_of_count (C : nat) (w : world) (r : response) (j res : json) :
  reply_of net w (PStr "player count ?") (PStr "-") = Answered r ->
  is_error r = false -> body r = Some j -> getitem j "result" = Return res ->
  getitem res "_count" = Return (JInt (Z.of_nat C)) ->
  (forall (i : Z) (w0 : world), 0 <= i < Z.of_nat C ->
     exists (p : LMSPlayer) (w1 : world),
       from_index i w0 = (Return p, w1)
       /\ players (self w1) = players (self w0)) ->
  fst (get_player_count net w) = Return (JInt (Z.of_nat C))
  /\ exists (ps : list LMSPlayer) (w' : world),
       get_players net from_index w = (Return ps, w')
       /\ List.length ps = C
       /\ players (self w') = Some ps
       /\ factory_calls from_index (map Z.of_nat (seq 0 C))
            (bump (after_post net (with_players [] w)
                              (PStr "player count ?") (PStr "-")))
            ps w'.
Proof.
  intros E He Hb Hj Hc Hf.
  split; [ now rewrite (get_player_count_result E He Hb Hj Hc) | ].
  set (w0 := bump (after_post net (with_players [] w)
                              (PStr "player count ?") (PStr "-"))).
  destruct (for_each_factory (map Z.of_nat (seq 0 C)) w0 (acc := []) eq_refl)
    as (ps & w' & Efor & Hps & Hl & Hcalls).
  { intros i w1 Hi. apply Hf.
    apply in_map_iff in Hi as (k & <- & Hk). apply in_seq in Hk. lia. }
  exists ps, w'.
  rewrite length_map, length_seq in Hl.
  repeat split; auto.
  unfold get_players. unfold bind at 1. unfold get_self at 1.
  unfold bind at 1. unfold set_self at 1.
  unfold bind at 1.
  change {| self := set_players [] (self w); posted := posted w |}
    with (with_players [] w).
  rewrite (get_player_count_result (w := with_players [] w) E He Hb Hj Hc).
  fold w0. unfold bind at 1. unfold lift, range. rewrite Nat2Z.id.
  unfold bind at 1. rewrite Efor.
  unfold bind, get_self. now rewrite Hps.
Qed.

End ServerFacts.

(** * The model at work on stub servers *)

Import Stub.

Lemma fresh_is_new : LMSServer_new "localhost" 9000 [] = Return fresh.
Proof. reflexivity. Qed.

(** The dispatch of [player count ?] to the stub: a direct run. *)
Example dispatch_player_count :
  fst (_request lms [PStr "player count ?"] [] fresh)
  = Return (JObj [("_count", JInt 3)]).
Proof. reflexivity. Qed.

(** Against a server that answers every request, [ping] raises. *)
Example ping_on_live_server :
  ping lms fresh = (Raise TypeError, fresh).
Proof. reflexivity. Qed.

(** Two dispatches against a server that answers 500 both carry id 1. *)
Lemma dispatch_request_ids_counterexample :
  LMSServer_new "localhost" 9000 [] = Return fresh
  /\ exists (rs : list (outcome json)) (w' : world),
       dispatch_all failing [ping_call; ping_call] fresh = (Return rs, w')
       /\ rs = [Raise HTTPError; Raise HTTPError]
       /\ request_ids (posted w') = [1; 1]
       /\ request_ids (posted w') <> [1; 2].
Proof.
  split; [ reflexivity | ].
  do 2 eexists. split; [ reflexivity | ]. simpl.
  repeat split. discriminate.
Qed.

(** Status 200 and the body [{}]: the dispatch raises [KeyError], which is
    neither [LMSConnectionError] nor the connection error of the HTTP client.
    Status 500: the dispatch raises [HTTPError], which a handler for
    [LMSConnectionError], such as the one of [ping], does not catch. *)
Lemma request_outcomes_counterexample :
  (reply_of hollow fresh (PStr "ping") (PStr "-") = ok (JObj [])
   /\ fst (_request hollow [PStr "ping"; PStr "-"] [] fresh) = Raise KeyError
   /\ isinstance KeyError LMSConnectionError = false
   /\ isinstance KeyError RequestsConnectionError = false)
  /\ (reply_of failing fresh (PStr "ping") (PStr "-")
      = Answered {| status_code := 500; body := None |}
      /\ fst (_request failing [PStr "ping"; PStr "-"] [] fresh) = Raise HTTPError
      /\ isinstance HTTPError LMSConnectionError = false
      /\ fst (try_except
                (_request failing [PStr "ping"; PStr "-"] [] ;; ret true)
                LMSConnectionError (ret false) fresh)
         = Raise HTTPError).
Proof. repeat split. Qed.

Lemma request_outcomes_witness :
  (reply_of failing fresh (PStr "ping") (PStr "-")
   = Answered {| status_code := 500; body := None |}
   /\ _request failing [PStr "ping"; PStr "-"] [] fresh
      = (Raise HTTPError, after_post failing fresh (PStr "ping") (PStr "-")))
  /\ (reply_of garbled fresh (PStr "ping") (PStr "-")
      = Answered {| status_code := 200; body := None |}
      /\ _request garbled [PStr "ping"; PStr "-"] [] fresh
         = (Raise JSONDecodeError,
            bump (after_post garbled fresh (PStr "ping") (PStr "-"))))
  /\ (reply_of listing fresh (PStr "ping") (PStr "-")
      = Answered {| status_code := 200; body := Some (JArr []) |}
      /\ _request listing [PStr "ping"; PStr "-"] [] fresh
         = (Raise TypeError,
            bump (after_post listing fresh (PStr "ping") (PStr "-"))))
  /\ (reply_of hollow fresh (PStr "ping") (PStr "-") = ok (JObj [])
      /\ _request hollow [PStr "ping"; PStr "-"] [] fresh
         = (Raise KeyError,
            bump (after_post hollow fresh (PStr "ping") (PStr "-"))))
  /\ (reply_of lms fresh (PStr "player count ?") (PStr "-")
      = ok (JObj [("result", JObj [("_count", JInt 3)])])
      /\ _request lms [PStr "player count ?"; PStr "-"] [] fresh
         = (Return (JObj [("_count", JInt 3)]),
            bump (after_post lms fresh (PStr "player count ?") (PStr "-")))).
Proof.
  split; [ split; [ reflexivity | ] | split; [ split; [ reflexivity | ] |
    split; [ split; [ reflexivity | ] | split; [ split; [ reflexivity | ] |
      split; [ reflexivity | ] ] ] ] ].
  - exact (proj1 (@request_outcomes failing (PStr "ping") (PStr "-") fresh
                    _ eq_refl) eq_refl).
  - exact (proj1 (proj2 (@request_outcomes garbled (PStr "ping") (PStr "-") fresh
                    _ eq_refl)) eq_refl eq_refl).
  - apply (proj1 (proj2 (proj2 (@request_outcomes listing (PStr "ping") (PStr "-")
                    fresh _ eq_refl))) eq_refl (JArr []) eq_refl).
    discriminate.
  - exact (proj1 (proj2 (proj2 (proj2 (@request_outcomes hollow (PStr "ping")
                    (PStr "-") fresh _ eq_refl)))) eq_refl [] eq_refl eq_refl).
  - exact (proj2 (proj2 (proj2 (proj2 (@request_outcomes lms
                    (PStr "player count ?") (PStr "-") fresh _ eq_refl))))
             eq_refl [("result", JObj [("_count", JInt 3)])] _ eq_refl eq_refl).
Defined.

(** The response of the specification: line 108 gives one group of two. *)
Example syncgroups_of_two_members :
  syncgroups_of
    (JObj [("syncgroups_loop", JArr [JObj [("sync_members", JStr "AA:AA,BB:BB")]])])
  = Return [["AA:AA"; "BB:BB"]].
Proof. reflexivity. Qed.

(** An entry without members gives a group of one empty reference. *)
Example syncgroups_of_no_members :
  syncgroups_of
    (JObj [("syncgroups_loop", JArr [JObj [("sync_members", JStr "")]; JObj []])])
  = Return [[""]; [""]].
Proof. reflexivity. Qed.

(** The stub answers [syncgroups ?] with this response, and the call raises
    all the same. *)
Example get_sync_groups_on_live_server :
  fst (_request lms [PStr "syncgroups ?"] [] fresh)
  = Return (JObj [("syncgroups_loop",
                   JArr [JObj [("sync_members", JStr "AA:AA,BB:BB")]])])
  /\ get_sync_groups lms fresh = (Raise TypeError, fresh).
Proof. split; reflexivity. Qed.

(** Two players and no group: the report that lines 144 to 162 build. *)
Example build_sync_status_unsynced :
  build_sync_status [{| name := "P1"; ref := "X" |}; {| name := "P2"; ref := "Y" |}] []
  = {| group_count := 0; player_count := 2;
       status_players := [{| item_name := "P1"; item_ref := "X"; sync_index := -1 |};
                          {| item_name := "P2"; item_ref := "Y"; sync_index := -1 |}] |}.
Proof. reflexivity. Qed.

(** The same players against the stub: the players are listed, then the call
    raises. *)
Example show_players_sync_status_on_live_server :
  exists w' : world,
    show_players_sync_status lms numbered fresh = (Raise TypeError, w')
    /\ option_map (@List.length _) (players (self w')) = Some 3%nat.
Proof. eexists. split; reflexivity. Qed.

Lemma version_raises_TypeError_witness :
  _version (self fresh) = JNull
  /\ version lms fresh = (Raise TypeError, fresh).
Proof.
  split; [ reflexivity | ].
  exact (@version_raises_TypeError lms fresh eq_refl).
Defined.

(** The stub would answer [version ?] with 7.9.0. *)
Example version_on_live_server :
  fst (_request lms [PStr "version ?"] [] fresh)
  = Return (JObj [("_version", JStr "7.9.0")])
  /\ version lms fresh = (Raise TypeError, fresh).
Proof. split; reflexivity. Qed.

(** The probe reports no scan in progress; [wipecache] is not sent. *)
Example rescan_full_on_live_server :
  exists w' : world,
    rescan lms "full" fresh = (Raise TypeError, w')
    /\ map (fun x => snd (p_params (x_json x))) (posted w')
       = [PList ["rescan"; "?"]].
Proof. eexists. split; reflexivity. Qed.

Lemma get_players_of_count_witness :
  reply_of lms fresh (PStr "player count ?") (PStr "-")
  = ok (JObj [("result", JObj [("_count", JInt 3)])])
  /\ fst (get_player_count lms fresh) = Return (JInt 3)
  /\ exists (ps : list LMSPlayer) (w' : world),
       get_players lms numbered fresh = (Return ps, w')
       /\ List.length ps = 3%nat
       /\ players (self w') = Some ps
       /\ factory_calls numbered [0; 1; 2]
            (bump (after_post lms (with_players [] fresh)
                              (PStr "player count ?") (PStr "-")))
            ps w'.
Proof.
  split; [ reflexivity | ].
  refine (@get_players_of_count lms numbered 3 fresh _ _ _
            eq_refl eq_refl eq_refl eq_refl eq_refl _).
  intros i w0 _. exists {| name := "Player " ++ str_of_int i; ref := str_of_int i |}, w0.
  split; reflexivity.
Defined.

(** The handles are those of the indices 0, 1 and 2, in this order. *)
Example get_players_on_live_server :
  fst (get_players lms numbered fresh)
  = Return [{| name := "Player 0"; ref := "0" |};
            {| name := "Player 1"; ref := "1" |};
            {| name := "Player 2"; ref := "2" |}].
Proof. reflexivity. Qed.

(** * Properties of the URL helper *)

Section UtilsFacts.

Import Utils.

(** A check over the first [n] integers holds of each of them. *)
Lemma forall_below (P : Z -> bool) (n : nat) :
  forallb P (map Z.of_nat (seq 0 n)) = true ->
  forall x : Z, 0 <= x < Z.of_nat n -> P x = true.
Proof.
  intros H x Hx. rewrite forallb_forall in H. apply H.
  apply in_map_iff. exists (Z.to_nat x). split; [ lia | ].
  apply in_seq. lia.
Qed.

Lemma lor_0x80 (x : Z) : 0 <= x < 64 -> Z.lor 0x80 x = 0x80 + x.
Proof.
  intros H. apply Z.eqb_eq.
  apply (forall_below (fun x => Z.lor 0x80 x =? 0x80 + x) 64); [ reflexivity | lia ].
Qed.

Lemma lor_0xC0 (x : Z) : 0 <= x < 32 -> Z.lor 0xC0 x = 0xC0 + x.
Proof.
  intros H. apply Z.eqb_eq.
  apply (forall_below (fun x => Z.lor 0xC0 x =? 0xC0 + x) 32); [ reflexivity | lia ].
Qed.

Lemma lor_0xE0 (x : Z) : 0 <= x < 16 -> Z.lor 0xE0 x = 0xE0 + x.
Proof.
  intros H. apply Z.eqb_eq.
  apply (forall_below (fun x => Z.lor 0xE0 x =? 0xE0 + x) 16); [ reflexivity | lia ].
Qed.

Lemma lor_0xF0 (x : Z) : 0 <= x < 8 -> Z.lor 0xF0 x = 0xF0 + x.
Proof.
  intros H. apply Z.eqb_eq.
  apply (forall_below (fun x => Z.lor 0xF0 x =? 0xF0 + x) 8); [ reflexivity | lia ].
Qed.

Lemma land_0x3F (x : Z) : Z.land x 0x3F = x mod 64.
Proof. exact (Z.land_ones x 6 ltac:(lia)). Qed.

Lemma shiftr_div (x n : Z) : 0 <= n -> Z.shiftr x n = x / 2 ^ n.
Proof. apply Z.shiftr_div_pow2. Qed.

Ltac ltb_cases :=
  repeat match goal with
         | |- context [?a <? ?b] => destruct (Z.ltb_spec a b); try lia
         | |- context [?a <=? ?b] => destruct (Z.leb_spec a b); try lia
         | |- context [?a =? ?b] => destruct (Z.eqb_spec a b); try lia
         end.

Lemma utf8_decode_1 (b : Z) (rest : bytes) :
  b < 0x80 -> utf8_decode (b :: rest) = b :: utf8_decode rest.
Proof.
  intros H. cbn [utf8_decode]. ltb_cases. reflexivity.
Qed.

Ltac shifts :=
  rewrite ?Z.shiftl_mul_pow2 by lia;
  change (2 ^ 6) with 64; change (2 ^ 12) with 4096;
  change (2 ^ 18) with 262144.

Ltac next_byte r :=
  subst r; cbv beta match; unfold is_continuation; ltb_cases;
  cbn [andb negb orb].

Lemma utf8_decode_2 (b1 b2 : Z) (rest : bytes) :
  0xC2 <= b1 < 0xE0 -> 0x80 <= b2 < 0xC0 ->
  utf8_decode (b1 :: b2 :: rest) = (b1 * 64 + b2 - 12416) :: utf8_decode rest.
Proof.
  intros H1 H2. remember (b2 :: rest) as r1.
  cbn [utf8_decode]; ltb_cases; next_byte r1;
    shifts; f_equal; lia.
Qed.

Lemma utf8_decode_3 (b1 b2 b3 : Z) (rest : bytes) :
  0xE0 <= b1 < 0xF0 -> 0x80 <= b2 < 0xC0 -> 0x80 <= b3 < 0xC0 ->
  (b1 = 0xE0 -> 0xA0 <= b2) -> (b1 = 0xED -> b2 < 0xA0) ->
  utf8_decode (b1 :: b2 :: b3 :: rest)
  = (b1 * 4096 + b2 * 64 + b3 - 925824) :: utf8_decode rest.
Proof.
  intros H1 H2 H3 Ha Hb.
  remember (b3 :: rest) as r2. remember (b2 :: r2) as r1.
  cbn [utf8_decode]; ltb_cases; next_byte r1; next_byte r2;
    shifts; f_equal; lia.
Qed.

Lemma utf8_decode_4 (b1 b2 b3 b4 : Z) (rest : bytes) :
  0xF0 <= b1 < 0xF5 -> 0x80 <= b2 < 0xC0 -> 0x80 <= b3 < 0xC0 ->
  0x80 <= b4 < 0xC0 ->
  (b1 = 0xF0 -> 0x90 <= b2) -> (b1 = 0xF4 -> b2 < 0x90) ->
  utf8_decode (b1 :: b2 :: b3 :: b4 :: rest)
  = (b1 * 262144 + b2 * 4096 + b3 * 64 + b4 - 63447168) :: utf8_decode rest.
Proof.
  intros H1 H2 H3 H4 Ha Hb.
  remember (b4 :: rest) as r3. remember (b3 :: r3) as r2.
  remember (b2 :: r2) as r1.
  cbn [utf8_decode]; ltb_cases; next_byte r1; next_byte r2; next_byte r3;
    shifts; f_equal; lia.
Qed.

Ltac divmod := Z.div_mod_to_equations; lia.

Ltac encoder_bytes :=
  rewrite ?land_0x3F, ?Z.shiftr_div_pow2 by lia;
  change (2 ^ 6) with 64; change (2 ^ 12) with 4096;
  change (2 ^ 18) with 262144;
  rewrite ?lor_0x80, ?lor_0xC0, ?lor_0xE0, ?lor_0xF0 by divmod.

(** Decoding what the encoder gives for a character gives the character,
    whatever bytes follow. *)
Lemma utf8_decode_encode_char (c : Z) (rest : bytes) :
  is_code_point c -> is_surrogate c = false ->
  exists bs : bytes,
    utf8_encode_char c = Return bs
    /\ Forall (fun b => 0 <= b < 256) bs
    /\ utf8_decode (bs ++ rest) = c :: utf8_decode rest.
Proof.
  unfold is_code_point, utf8_encode_char. intros Hc Hs.
  assert (Hr : c < 0xD800 \/ 0xDFFF < c) by (unfold is_surrogate in Hs; lia).
  destruct (Z.ltb_spec c 0x80).
  { eexists. split; [ reflexivity | ]. split.
    - repeat constructor; lia.
    - now apply utf8_decode_1. }
  destruct (Z.ltb_spec c 0x800).
  { eexists. split; [ reflexivity | ]. encoder_bytes. split.
    - repeat constructor; divmod.
    - cbn [app]. rewrite utf8_decode_2 by divmod. f_equal. divmod. }
  rewrite Hs.
  destruct (Z.ltb_spec c 0x10000).
  { eexists. split; [ reflexivity | ]. encoder_bytes. split.
    - repeat constructor; divmod.
    - cbn [app]. rewrite utf8_decode_3; try divmod. f_equal. divmod. }
  eexists. split; [ reflexivity | ]. encoder_bytes. split.
  - repeat constructor; divmod.
  - cbn [app]. rewrite utf8_decode_4; try divmod. f_equal. divmod.
Qed.

Lemma utf8_decode_encode (t : text) :
  Forall scalar_value t ->
  exists bs : bytes,
    utf8_encode t = Return bs
    /\ Forall (fun b => 0 <= b < 256) bs
    /\ utf8_decode bs = t.
Proof.
  induction 1 as [| c t [Hc Hs] _ (out & Eout & Hout & Hdec)].
  - exists []. repeat split. constructor.
  - destruct (utf8_decode_encode_char out Hc Hs) as (bs & Ebs & Hbs & Hd).
    exists (bs ++ out). simpl. rewrite Ebs, Eout.
    split; [ reflexivity | ]. split; [ now apply Forall_app | ].
    now rewrite Hd, Hdec.
Qed.

(** ** Percent-encoding of bytes *)

Lemma hex_value_digit (n : Z) :
  0 <= n < 16 -> hex_value (hex_digit n) = Some n.
Proof.
  intros H. unfold hex_value, hex_digit.
  ltb_cases; cbn [andb]; f_equal; lia.
Qed.

Lemma hex_digit_ascii (n : Z) : 0 <= n < 16 -> hex_digit n < 0x80.
Proof. intros H. unfold hex_digit. ltb_cases. Qed.

Lemma is_safe_ascii (b : Z) : is_safe b = true -> b < 0x80 /\ b <> 37.
Proof.
  unfold is_safe, always_safe. intros H.
  destruct (Z.ltb_spec b 0x80) as [Hlt | Hge].
  - split; [ assumption | ]. intros ->. discriminate.
  - exfalso. revert H. ltb_cases; discriminate.
Qed.

(** Unquoting what the quoter gives for a byte gives the byte, whatever
    follows. *)
Lemma unquote_to_bytes_quoter (b : Z) (s : text) :
  0 <= b < 256 ->
  unquote_to_bytes (quoter b ++ s) = b :: unquote_to_bytes s.
Proof.
  intros H. unfold quoter. destruct (is_safe b) eqn:Es.
  - apply is_safe_ascii in Es as [_ Hp]. cbn [app unquote_to_bytes].
    destruct (Z.eqb_spec b 37); [ contradiction | reflexivity ].
  - cbn [app unquote_to_bytes]. change (37 =? 37) with true. cbv iota.
    rewrite !hex_value_digit by divmod. f_equal. divmod.
Qed.

Lemma quoter_ascii (b : Z) :
  0 <= b < 256 -> Forall (fun c => c < 0x80) (quoter b).
Proof.
  intros H. unfold quoter. destruct (is_safe b) eqn:Es.
  - apply is_safe_ascii in Es as [Hlt _]. now repeat constructor.
  - repeat constructor; try lia; apply hex_digit_ascii; divmod.
Qed.

Lemma unquote_to_bytes_quote_from_bytes (bs : bytes) :
  Forall (fun b => 0 <= b < 256) bs ->
  unquote_to_bytes (quote_from_bytes bs) = bs
  /\ Forall (fun c => c < 0x80) (quote_from_bytes bs).
Proof.
  induction 1 as [| b bs Hb _ [IH1 IH2]]; simpl.
  - split; [ reflexivity | constructor ].
  - split.
    + now rewrite unquote_to_bytes_quoter, IH1.
    + apply Forall_app. split; [ now apply quoter_ascii | assumption ].
Qed.

(** ** [unquote] on ASCII text *)

Lemma unquote_runs_ascii (s : text) : forall run : text,
  Forall (fun c => c < 0x80) s ->
  unquote_runs s run = utf8_decode (unquote_to_bytes (run ++ s)).
Proof.
  induction s as [| c s IH]; intros run H; simpl.
  - now rewrite app_nil_r.
  - inversion H as [| ? ? Hc Hs]; subst.
    destruct (Z.ltb_spec c 0x80); [ | lia ].
    rewrite (IH _ Hs), <- app_assoc. reflexivity.
Qed.

Lemma unquote_to_bytes_no_percent (s : text) :
  existsb (Z.eqb 37) s = false -> unquote_to_bytes s = s.
Proof.
  induction s as [| c s IH]; [ reflexivity | ].
  cbn [existsb unquote_to_bytes].
  intros H. apply orb_false_iff in H as [Hc Hs].
  rewrite Z.eqb_sym in Hc. rewrite Hc. now rewrite IH.
Qed.

Lemma utf8_decode_ascii (s : text) :
  Forall (fun c => c < 0x80) s -> utf8_decode s = s.
Proof.
  induction 1 as [| c s Hc _ IH]; [ reflexivity | ].
  now rewrite utf8_decode_1, IH.
Qed.

Lemma urllib_unquote_ascii (s : text) :
  Forall (fun c => c < 0x80) s ->
  urllib_unquote s = utf8_decode (unquote_to_bytes s).
Proof.
  intros H. unfold urllib_unquote.
  destruct (existsb (Z.eqb 37) s) eqn:E.
  - now rewrite unquote_runs_ascii.
  - now rewrite unquote_to_bytes_no_percent, utf8_decode_ascii.
Qed.

(** A surrogate anywhere in the text makes the encoder raise. *)
Lemma utf8_encode_surrogate (t : text) :
  Exists (fun c => is_surrogate c = true) t ->
  utf8_encode t = Raise UnicodeEncodeError.
Proof.
  assert (Hchar : forall c, match utf8_encode_char c with
                            | Return _ => True
                            | Raise e => e = UnicodeEncodeError
                            end).
  { intros c. unfold utf8_encode_char.
    destruct (c <? 0x80); [ exact I | ].
    destruct (c <? 0x800); [ exact I | ].
    destruct (is_surrogate c); [ reflexivity | ].
    destruct (c <? 0x10000); exact I. }
  induction 1 as [c t Hc | c t _ IH]; cbn [utf8_encode].
  - unfold utf8_encode_char.
    assert (Hr : 0xD800 <= c <= 0xDFFF) by (unfold is_surrogate in Hc; lia).
    destruct (Z.ltb_spec c 0x80); [ lia | ].
    destruct (Z.ltb_spec c 0x800); [ lia | ].
    now rewrite Hc.
  - specialize (Hchar c).
    destruct (utf8_encode_char c) as [bs | e]; [ | now subst ].
    now rewrite IH.
Qed.

(** C10, amended: for every text made of Unicode scalar values, that is of
    code points that are not surrogates, [quote] returns and [unquote] gives
    the text back from what it returned; and on every text that holds a
    surrogate, [quote] raises [UnicodeEncodeError]. *)
Theorem unquote_quote (t : text) :
  (Forall scalar_value t ->
   exists q : text, quote t = Return q /\ unquote q = t)
  /\ (Exists (fun c => is_surrogate c = true) t ->
      quote t = Raise UnicodeEncodeError).
Proof.
  split.
  - intros H. destruct (utf8_decode_encode H) as (bs & E & Hbs & Hd).
    destruct (unquote_to_bytes_quote_from_bytes Hbs) as [Hu Ha].
    exists (quote_from_bytes bs). unfold quote, unquote, urllib_quote.
    rewrite E. split; [ reflexivity | ].
    now rewrite urllib_unquote_ascii, Hu.
  - intros H. unfold quote, urllib_quote.
    now rewrite (utf8_encode_surrogate H).
Qed.

End UtilsFacts.

Import Utils.

(** A lone surrogate is a character of a [str], and [quote] raises on it. *)
Lemma unquote_quote_counterexample :
  is_code_point 0xD800
  /\ quote [0xD800] = Raise UnicodeEncodeError
  /\ ~ exists q : text, quote [0xD800] = Return q /\ unquote q = [0xD800].
Proof.
  split; [ unfold is_code_point; lia | ].
  split; [ reflexivity | ].
  intros (q & E & _). discriminate E.
Qed.

Lemma unquote_quote_witness :
  (Forall scalar_value [97; 32; 233; 0x20AC; 0x1F600; 47; 37]
   /\ exists q : text,
        quote [97; 32; 233; 0x20AC; 0x1F600; 47; 37] = Return q
        /\ unquote q = [97; 32; 233; 0x20AC; 0x1F600; 47; 37])
  /\ (Exists (fun c => is_surrogate c = true) [97; 0x1F600; 0xDFFF; 98]
      /\ quote [97; 0x1F600; 0xDFFF; 98] = Raise UnicodeEncodeError).
Proof.
  assert (H : Forall scalar_value [97; 32; 233; 0x20AC; 0x1F600; 47; 37]).
  { repeat constructor; unfold is_code_point; lia. }
  assert (S : Exists (fun c => is_surrogate c = true) [97; 0x1F600; 0xDFFF; 98]).
  { do 2 apply Exists_cons_tl. now apply Exists_cons_hd. }
  split.
  - split; [ exact H | exact (proj1 (unquote_quote _) H) ].
  - split; [ exact S | exact (proj2 (unquote_quote _) S) ].
Defined.

(** The text [a é€/%] with a space after the [a], quoted and unquoted. *)
Example quote_sample :
  quote [97; 32; 233; 0x20AC; 47; 37]
  = Return [97; 37; 50; 48; 37; 67; 51; 37; 65; 57; 37; 69; 50; 37; 56; 50;
            37; 65; 67; 47; 37; 50; 53].
Proof. reflexivity. Qed.

Example unquote_sample :
  unquote [97; 37; 50; 48; 37; 67; 51; 37; 65; 57; 37; 69; 50; 37; 56; 50;
           37; 65; 67; 47; 37; 50; 53]
  = [97; 32; 233; 0x20AC; 47; 37].
Proof. reflexivity. Qed.

(** * Further properties of the server client *)

Section ServerMore.

Variable net : list exchange -> string -> payload -> reply.
Variable from_index : Z -> M LMSPlayer.

(** ** What a dispatch leaves alone *)

Lemma _request_body_frame (command player : pyval) (w : world) :
  let w' := snd (_request_body net command player w) in
  same_attributes (self w) (self w')
  /\ id (self w) <= id (self w') <= id (self w) + 1
  /\ posted w' = posted (after_post net w command player).
Proof.
  rewrite _request_body_eq. unfold same_attributes.
  destruct (reply_of net w command player) as [| r]; [ simpl; intuition lia | ].
  destruct (is_error r); [ simpl; intuition lia | ].
  destruct (body r); simpl; intuition lia.
Qed.

(** X1: a call of [_request], whatever its arguments and its outcome, assigns
    no attribute of the connection but [id], moves [id] up by one at most, and
    adds one exchange at most to those already made. *)
Theorem request_frame (args : list pyval) (kwargs : list (string * pyval))
        (w : world) :
  let w' := snd (_request net args kwargs w) in
  same_attributes (self w) (self w')
  /\ id (self w) <= id (self w') <= id (self w) + 1
  /\ exists xs : list exchange,
       posted w' = posted w ++ xs /\ (List.length xs <= 1)%nat.
Proof.
  unfold _request, bind, lift.
  destruct (bind_args args kwargs) as [[command player] | e].
  - destruct (_request_body_frame command player w) as (Ha & Hi & Hp).
    cbn [fst snd]. split; [ exact Ha | ]. split; [ exact Hi | ].
    rewrite Hp. eexists. split; [ reflexivity | ]. simpl. lia.
  - simpl. unfold same_attributes. repeat split; try lia.
    exists []. rewrite app_nil_r. auto.
Qed.

(** X2: a call of [_request] with a keyword that is neither [command] nor
    [player] raises [TypeError] and sends nothing, whatever else is passed. *)
Theorem request_unknown_keyword (args : list pyval)
        (kwargs : list (string * pyval)) (k : string) (w : world) :
  In k (map fst kwargs) -> k <> "command"%string -> k <> "player"%string ->
  _request net args kwargs w = (Raise TypeError, w).
Proof.
  intros Hin Hc Hp. unfold _request, bind, lift, bind_args.
  replace (existsb _ (map fst kwargs)) with true; [ reflexivity | ].
  symmetry. apply existsb_exists. exists k. split; [ assumption | ].
  apply String.eqb_neq in Hc, Hp. now rewrite Hc, Hp.
Qed.

(** Tokens of [split]: not empty, no white space inside. *)
Lemma append_cons (w : string) (c : ascii) (s : string) :
  ((w ++ String c EmptyString) ++ s = w ++ String c s)%string.
Proof.
  induction w as [| a w IH]; simpl; [ reflexivity | now rewrite IH ].
Qed.

Lemma starts_with_app (p a b : string) :
  starts_with p a = true -> starts_with p (a ++ b) = true.
Proof.
  revert a. induction p as [| x p IH]; intros a H; [ reflexivity | ].
  destruct a as [| y a]; [ discriminate | ].
  cbn [starts_with append] in *.
  apply andb_prop in H as [Hx Hp]. now rewrite Hx, (IH a Hp).
Qed.

Lemma whitespace_not_empty (sp : string) :
  In sp whitespace -> String.length sp <> 0%nat.
Proof.
  intros H.
  assert (A : forallb (fun sp => negb (Nat.eqb (String.length sp) 0)) whitespace
              = true) by reflexivity.
  rewrite forallb_forall in A. apply A in H.
  apply negb_true_iff, Nat.eqb_neq in H. exact H.
Qed.

(** A white space character at the head of [a] is at the head of [a ++ b]. *)
Lemma space_length_app (a b : string) :
  space_length (a ++ b) = 0%nat -> space_length a = 0%nat.
Proof.
  unfold space_length. intros H.
  destruct (find (fun sp => starts_with sp a) whitespace) as [sp |] eqn:Ea;
    [ exfalso | reflexivity ].
  apply find_some in Ea as [Hin Hsp].
  destruct (find (fun sp => starts_with sp (a ++ b)) whitespace) as [sp' |] eqn:Eab.
  - apply find_some in Eab as [Hin' _]. now apply (whitespace_not_empty Hin').
  - apply (find_none _ _ Eab) in Hin. cbv beta in Hin.
    now rewrite (@starts_with_app sp a b Hsp) in Hin.
Qed.

Lemma blank_in_push (w : string) (c : ascii) (s : string) :
  blank_in (w ++ String c EmptyString) s
  = blank_in w (String c s) || negb (Nat.eqb (space_length (String c s)) 0).
Proof.
  induction w as [| a w IH]; cbn [append blank_in].
  - now rewrite orb_false_r.
  - change (String a (w ++ String c EmptyString) ++ s)%string
      with (String a ((w ++ String c EmptyString) ++ s))%string.
    now rewrite append_cons, IH, orb_assoc.
Qed.

Lemma blank_in_has_blank (w s : string) :
  blank_in w s = false -> has_blank w = false.
Proof.
  induction w as [| a w IH]; [ reflexivity | ].
  cbn [blank_in has_blank]. intros H.
  apply orb_false_iff in H as [Ha Hw].
  apply negb_false_iff, Nat.eqb_eq in Ha.
  now rewrite (@space_length_app (String a w) s Ha), (IH Hw).
Qed.

Lemma split_ws_go_tokens (s : string) :
  forall (skip : nat) (cur : option string),
    match cur with
    | Some w => skip = 0%nat /\ w <> ""%string /\ blank_in w s = false
    | None => True
    end ->
    Forall (fun t => t <> ""%string /\ has_blank t = false)
           (split_ws_go s skip cur).
Proof.
  induction s as [| c s IH]; intros skip cur H; cbn [split_ws_go].
  - destruct cur as [w |]; [ | constructor ].
    destruct H as (_ & Hn & Hb).
    constructor; [ | constructor ].
    split; [ assumption | now apply (@blank_in_has_blank w _ Hb) ].
  - destruct skip as [| k].
    + destruct (space_length (String c s)) as [| k] eqn:El.
      * apply IH. split; [ reflexivity | ]. destruct cur as [w |].
        -- destruct H as (_ & Hn & Hb). split.
           ++ destruct w; [ contradiction | discriminate ].
           ++ now rewrite blank_in_push, Hb, El.
        -- split; [ discriminate | ].
           cbn [append blank_in]. now rewrite El.
      * destruct cur as [w |]; [ | now apply IH ].
        destruct H as (_ & Hn & Hb).
        constructor; [ | now apply IH ].
        split; [ assumption | now apply (@blank_in_has_blank w _ Hb) ].
    + destruct cur as [w |]; [ | now apply IH ].
      destruct H as (Hk & _). discriminate.
Qed.

(** X3: the dispatch of a command given as a string is the dispatch of the
    list of its words: both post the same payload and end alike; and none of
    the words is empty or holds a white space character, ASCII or not. *)
Theorem request_string_command (s : string) (player : pyval) (w : world) :
  _request net [PStr s; player] [] w
  = _request net [PList (split_ws s); player] [] w
  /\ p_params (payload_of w (PStr s) player) = (player, PList (split_ws s))
  /\ Forall (fun t => t <> ""%string /\ has_blank t = false) (split_ws s).
Proof.
  split; [ | split; [ reflexivity | now apply split_ws_go_tokens ] ].
  now rewrite !_request_positional, !_request_body_eq.
Qed.

(** A command with a no-break space, a next-line character and an em space
    between its words. *)
Example split_ws_unicode :
  split_ws (str_of_bytes [97; 194; 160; 98; 194; 133; 99; 226; 128; 131; 100]%nat)
  = ["a"; "b"; "c"; "d"]%string.
Proof. reflexivity. Qed.

(** ** The calls that pass [params] *)

(** X4: [sync] passes [params] to [_request]: it raises [TypeError] for every
    master and slave, and no command reaches the server. *)
Theorem sync_raises_TypeError (master slave : string) (w : world) :
  sync net master slave w = (Raise TypeError, w).
Proof.
  unfold sync, bind.
  pose proof (_request_params net [("player", PStr master)]
                (PList ["sync"; slave]) w) as H.
  cbn [app] in H. now rewrite H.
Qed.

(** X5: a read of [rescanprogress] raises [TypeError] and sends nothing. *)
Theorem rescanprogress_raises_TypeError (w : world) :
  rescanprogress net w = (Raise TypeError, w).
Proof.
  unfold rescanprogress, bind. now rewrite _request_only_params.
Qed.

(** X6: a read of [version] changes nothing: no request is sent and no
    attribute is assigned; it gives the cached value when there is one and
    raises [TypeError] when there is none. *)
Theorem version_changes_nothing (w : world) :
  snd (version net w) = w
  /\ fst (version net w)
     = if is_None (_version (self w)) then Raise TypeError
       else Return (_version (self w)).
Proof.
  unfold version, bind, get_self.
  destruct (is_None (_version (self w))).
  - now rewrite _request_only_params.
  - split; reflexivity.
Qed.

(** ** [rescan] *)

(** The probe of [rescan]: the expression inside [bool(...)]. *)
Lemma rescan_by_probe (mode : string) (w : world) :
  rescan net mode w =
  match (r <- _request net [PStr "rescan ?"] [] ;;
         lift (getitem r "_rescan")) w with
  | (Return v, w') =>
      if truthy v then (Return (JStr ""), w')
      else if (String.eqb mode "fast" || String.eqb mode "full"
               || String.eqb mode "playlists")%bool
           then (Raise TypeError, w')
           else (Return JNull, w')
  | (Raise _, w') => (Return (JStr ""), w')
  end.
Proof.
  unfold rescan, bind, try_except_any, lift, ret.
  destruct (_request net [PStr "rescan ?"] [] w) as [[r | e] w1];
    [ | reflexivity ].
  destruct (getitem r "_rescan") as [v | e]; [ | reflexivity ].
  destruct (truthy v); [ reflexivity | ]. cbn [negb].
  destruct (String.eqb mode "fast"); [ now rewrite _request_only_params | ].
  destruct (String.eqb mode "full"); [ now rewrite _request_only_params | ].
  destruct (String.eqb mode "playlists"); [ now rewrite _request_only_params | ].
  reflexivity.
Qed.

(** X7: whatever the mode, [rescan] posts one request, the probe
    [rescan ?] addressed to ["-"], and no scan command after it. *)
Theorem rescan_posts_probe_only (mode : string) (w : world) :
  posted (snd (rescan net mode w))
  = posted w
    ++ [{| x_url := url (self w);
           x_json := {| p_id := id (self w); p_method := "slim.request";
                        p_params := (PStr "-", PList ["rescan"; "?"]) |};
           x_reply := reply_of net w (PStr "rescan ?") (PStr "-") |}].
Proof.
  rewrite rescan_by_probe. unfold bind, lift.
  rewrite _request_default_player.
  pose proof (_request_body_frame (PStr "rescan ?") (PStr "-") w) as (_ & _ & Hp).
  destruct (_request_body net (PStr "rescan ?") (PStr "-") w) as [[r | e] w1];
    cbn [snd] in Hp.
  - destruct (getitem r "_rescan") as [v | e].
    + destruct (truthy v); [ exact Hp | ].
      destruct (_ || _)%bool; exact Hp.
    + exact Hp.
  - exact Hp.
Qed.

(** X8: when the probe of [rescan] fails, for whatever reason (a refused
    connection, an error status, a body that is not JSON, a missing [result]
    or [_rescan]), [rescan] swallows the exception and returns the empty
    string, for every mode. *)
Theorem rescan_swallows_probe_errors (mode : string) (w w' : world) (e : exn) :
  (r <- _request net [PStr "rescan ?"] [] ;; lift (getitem r "_rescan")) w
  = (Raise e, w') ->
  rescan net mode w = (Return (JStr ""), w').
Proof.
  intros H. now rewrite rescan_by_probe, H.
Qed.

(** X9: when the probe reports a scan in progress (a true [_rescan]),
    [rescan] returns the empty string; when it reports none, a mode that is
    not [fast], [full] or [playlists] makes [rescan] return [None], and each of
    these three makes it raise [TypeError]. *)
Theorem rescan_by_status (mode : string) (w w' : world) (v : json) :
  (r <- _request net [PStr "rescan ?"] [] ;; lift (getitem r "_rescan")) w
  = (Return v, w') ->
  (truthy v = true -> rescan net mode w = (Return (JStr ""), w'))
  /\ (truthy v = false ->
      mode <> "fast"%string -> mode <> "full"%string ->
      mode <> "playlists"%string ->
      rescan net mode w = (Return JNull, w'))
  /\ (truthy v = false ->
      mode = "fast"%string \/ mode = "full"%string \/ mode = "playlists"%string ->
      rescan net mode w = (Raise TypeError, w')).
Proof.
  intros H. rewrite rescan_by_probe, H. repeat split.
  - now intros ->.
  - intros -> H1 H2 H3. apply String.eqb_neq in H1, H2, H3.
    now rewrite H1, H2, H3.
  - intros -> [-> | [-> | ->]]; reflexivity.
Qed.

(** ** Sequences of dispatches *)

(** The exchanges of a sequence of dispatches: all go to the URL of the
    connection with the method [slim.request], and each reply is what the
    server gave for that payload. *)
Lemma dispatch_all_log (calls : list (pyval * pyval)) : forall w : world,
  exists xs : list exchange,
    posted (snd (dispatch_all net calls w)) = posted w ++ xs
    /\ Forall (fun x => x_url x = url (self w)
                        /\ p_method (x_json x) = "slim.request"%string
                        /\ exists log, x_reply x = net log (x_url x) (x_json x))
              xs.
Proof.
  induction calls as [| [command player] calls IH]; intros w.
  - exists []. simpl. rewrite app_nil_r. auto.
  - cbn [dispatch_all]. rewrite _request_positional.
    destruct (_request_body_frame command player w) as ((_ & _ & _ & Hu & _) & _ & Hp).
    destruct (_request_body net command player w) as [r w1]. cbn [snd] in *.
    destruct (IH w1) as (xs & Hxs & Hall).
    destruct (dispatch_all net calls w1) as [[rs | e] w2]; cbn [snd] in *;
      (eexists; split;
       [ rewrite Hxs, Hp; unfold after_post; cbn [posted];
         rewrite <- app_assoc; reflexivity
       | constructor;
         [ cbn; repeat split; eexists; reflexivity
         | rewrite <- Hu; exact Hall ] ]).
Qed.

(** X10: every request of a sequence of dispatches on a new connection is
    posted to [http://host:port/jsonrpc.js] with the method [slim.request]. *)
Theorem dispatch_all_endpoint (h : string) (p : Z) (calls : list (pyval * pyval)) :
  exists w : world,
    LMSServer_new h p [] = Return w
    /\ Forall (fun x => x_url x
                        = ("http://" ++ h ++ ":" ++ str_of_int p ++ "/jsonrpc.js")%string
                        /\ p_method (x_json x) = "slim.request"%string)
              (posted (snd (dispatch_all net calls w))).
Proof.
  eexists. split; [ reflexivity | ].
  match goal with |- context [dispatch_all net calls ?w0] =>
    destruct (dispatch_all_log calls w0) as (xs & Hxs & Hall) end.
  rewrite Hxs. cbn [posted app].
  eapply Forall_impl; [ | exact Hall ].
  cbn. intros x (Hu & Hm & _). now rewrite Hu.
Qed.

Lemma next_id_accepted (rs : list reply) : forall i : Z,
  forallb (accepted) rs = true ->
  next_id i rs = i + Z.of_nat (List.length rs).
Proof.
  induction rs as [| r rs IH]; intros i H; simpl in *; [ lia | ].
  apply andb_prop in H as [Hr Hrs]. rewrite Hr, (IH _ Hrs). lia.
Qed.

(** X11: when the server answers every request with a status that is not a
    client or server error, the N dispatches of a sequence on a new connection
    carry the ids 1, 2, ..., N, and the counter ends at N + 1, whether or not
    the bodies can be read. *)
Theorem dispatch_ids_all_accepted (h : string) (p : Z)
        (calls : list (pyval * pyval)) :
  (forall log u j, accepted (net log u j) = true) ->
  exists w : world,
    LMSServer_new h p [] = Return w
    /\ request_ids (posted (snd (dispatch_all net calls w)))
       = map Z.of_nat (seq 1 (List.length calls))
    /\ id (self (snd (dispatch_all net calls w)))
       = Z.of_nat (List.length calls) + 1.
Proof.
  intros Hacc.
  destruct (new_connection h p []) as (w & Hw & Hid & Hlog & _).
  exists w. split; [ assumption | ].
  destruct (dispatch_all_ids net calls w) as (rs & w' & xs & E & Hp & Hl & Hids & Hn).
  destruct (dispatch_all_log calls w) as (xs' & Hp' & Hall).
  rewrite E in *. cbn [snd] in *.
  rewrite Hp in Hp'. apply app_inv_head in Hp'. subst xs'.
  assert (Ha : forallb (accepted) (map x_reply xs) = true).
  { apply forallb_forall. intros r Hr.
    apply in_map_iff in Hr as (x & <- & Hx).
    rewrite Forall_forall in Hall. destruct (Hall x Hx) as (_ & _ & log & ->).
    apply Hacc. }
  rewrite Hlog in Hp. cbn [app] in Hp. rewrite Hp.
  split.
  - rewrite Hids, Hid, (ids_from_accepted _ _ Ha), length_map, Hl.
    rewrite <- seq_shift, map_map. apply map_ext. intros k. lia.
  - rewrite Hn, Hid, (next_id_accepted _ _ Ha), length_map, Hl. lia.
Qed.

(** ** Players *)

Lemma get_player_count_frame (w : world) :
  same_attributes (self w) (self (snd (get_player_count net w)))
  /\ posted (snd (get_player_count net w))
     = posted (after_post net w (PStr "player count ?") (PStr "-")).
Proof.
  unfold get_player_count, bind, lift. rewrite _request_default_player.
  destruct (_request_body_frame (PStr "player count ?") (PStr "-") w)
    as (Ha & _ & Hp).
  destruct (_request_body net (PStr "player count ?") (PStr "-") w)
    as [[r | e] w1]; cbn [snd] in *; auto.
Qed.

(** X12: [get_player_count] posts one request, [player count ?] addressed to
    ["-"] under the current id, whatever comes back, and assigns no attribute
    but the counter. *)
Theorem get_player_count_request (w : world) :
  posted (snd (get_player_count net w))
  = posted w
    ++ [{| x_url := url (self w);
           x_json := {| p_id := id (self w); p_method := "slim.request";
                        p_params := (PStr "-", PList ["player"; "count"; "?"]) |};
           x_reply := reply_of net w (PStr "player count ?") (PStr "-") |}]
  /\ same_attributes (self w) (self (snd (get_player_count net w))).
Proof.
  destruct (get_player_count_frame w) as [Ha Hp]. split; assumption.
Qed.

(** The count is asked for after [self.players] is emptied; the request is
    the same. *)
Lemma get_player_count_with_players (ps : list LMSPlayer) (w : world) :
  get_player_count net (with_players ps w)
  = (fst (get_player_count net w),
     with_players ps (snd (get_player_count net w))).
Proof.
  unfold get_player_count, bind, lift.
  rewrite !_request_default_player, !_request_body_eq, reply_of_with_players.
  destruct (reply_of net w (PStr "player count ?") (PStr "-")) as [| r];
    [ reflexivity | ].
  destruct (is_error r); [ reflexivity | ].
  destruct (body r) as [j |]; [ | reflexivity ].
  destruct (getitem j "result") as [res | e]; [ | reflexivity ].
  destruct (getitem res "_count"); reflexivity.
Qed.

(** [get_players], from the outcome of [get_player_count]. *)
Lemma get_players_eq (w : world) :
  get_players net from_index w =
  let w1 := with_players [] (snd (get_player_count net w)) in
  match fst (get_player_count net w) with
  | Raise e => (Raise e, w1)
  | Return count =>
      match range count with
      | Raise e => (Raise e, w1)
      | Return indices =>
          match for_each indices
                  (fun i =>
                     player <- from_index i ;;
                     s <- get_self ;;
                     match players s with
                     | Some ps => set_self (set_players (ps ++ [player]) s)
                     | None => raise AttributeError
                     end) w1 with
          | (Raise e, w2) => (Raise e, w2)
          | (Return _, w2) =>
              match players (self w2) with
              | Some ps => (Return ps, w2)
              | None => (Raise AttributeError, w2)
              end
          end
      end
  end.
Proof.
  unfold get_players. unfold bind at 1. unfold get_self at 1.
  unfold bind at 1. unfold set_self at 1. unfold bind at 1.
  change {| self := set_players [] (self w); posted := posted w |}
    with (with_players [] w).
  rewrite get_player_count_with_players.
  destruct (get_player_count net w) as [[count | e] w1]; cbn [fst snd];
    [ | reflexivity ].
  unfold bind at 1. unfold lift.
  destruct (range count) as [indices | e]; [ | reflexivity ].
  unfold bind at 1.
  match goal with |- context [for_each indices ?b ?w0] =>
    destruct (for_each indices b w0) as [[[] | e] w2] end; [ | reflexivity ].
  unfold bind, get_self. destruct (players (self w2)); reflexivity.
Qed.

(** X13: when [get_player_count] raises, [get_players] raises the same
    exception without calling the factory, and [self.players], emptied before
    the count was asked for, stays empty: the list cached by an earlier call
    is lost. *)
Theorem get_players_count_fails (w : world) (e : exn) :
  fst (get_player_count net w) = Raise e ->
  fst (get_players net from_index w) = Raise e
  /\ players (self (snd (get_players net from_index w))) = Some []
  /\ posted (snd (get_players net from_index w))
     = posted (snd (get_player_count net w)).
Proof.
  intros H. rewrite get_players_eq, H. cbn. auto.
Qed.

(** X14: when the count that the server reports is zero or negative,
    [get_players] returns the empty list and never calls the factory. *)
Theorem get_players_no_player (w : world) (k : Z) :
  fst (get_player_count net w) = Return (JInt k) -> k <= 0 ->
  get_players net from_index w
  = (Return [], with_players [] (snd (get_player_count net w))).
Proof.
  intros H Hk. rewrite get_players_eq, H. cbn [range].
  replace (Z.to_nat k) with 0%nat by lia. reflexivity.
Qed.

(** X15: when the count that the server reports is not an integer (a string,
    a float, [null], a list or an object), [get_players] raises [TypeError]
    and leaves [self.players] empty. *)
Theorem get_players_count_not_int (w : world) (count : json) :
  fst (get_player_count net w) = Return count ->
  (forall k, count <> JInt k) -> (forall b, count <> JBool b) ->
  get_players net from_index w
  = (Raise TypeError, with_players [] (snd (get_player_count net w))).
Proof.
  intros H Hi Hb. rewrite get_players_eq, H.
  destruct count; try reflexivity.
  - now destruct (Hb b).
  - now destruct (Hi n).
Qed.

Lemma for_each_app {A : Type} (xs ys : list A) (body : A -> M unit) :
  forall w : world,
    for_each (xs ++ ys) body w =
    match for_each xs body w with
    | (Return _, w') => for_each ys body w'
    | (Raise e, w') => (Raise e, w')
    end.
Proof.
  induction xs as [| x xs IH]; intros w; [ reflexivity | ].
  cbn [app for_each]. unfold bind at 1 2.
  destruct (body x w) as [[[] | e] w1]; [ apply IH | reflexivity ].
Qed.

(** X16: when the factory raises on index [n], after returning a handle for
    each index below it, [get_players] raises the same exception, asks for no
    index above [n], and leaves in [self.players] the [n] handles made so
    far. *)
Theorem get_players_factory_fails (C n : nat) (w : world) (e : exn) :
  fst (get_player_count net w) = Return (JInt (Z.of_nat C)) ->
  (n < C)%nat ->
  (forall (i : Z) (w0 : world), 0 <= i < Z.of_nat n ->
     exists (p : LMSPlayer) (w1 : world),
       from_index i w0 = (Return p, w1)
       /\ players (self w1) = players (self w0)) ->
  (forall w0 : world, exists w1 : world,
     from_index (Z.of_nat n) w0 = (Raise e, w1)
     /\ players (self w1) = players (self w0)) ->
  exists (ps : list LMSPlayer) (w2 w' : world),
    get_players net from_index w = (Raise e, w')
    /\ players (self w') = Some ps
    /\ List.length ps = n
    /\ factory_calls from_index (map Z.of_nat (seq 0 n))
         (with_players [] (snd (get_player_count net w))) ps w2
    /\ from_index (Z.of_nat n) w2 = (Raise e, w').
Proof.
  intros H Hn Hok Hfail. rewrite get_players_eq, H. cbn [range].
  rewrite Nat2Z.id.
  replace C with (n + (C - n))%nat by lia.
  rewrite seq_app, map_app, for_each_app.
  set (w1 := with_players [] (snd (get_player_count net w))).
  destruct (for_each_factory from_index (map Z.of_nat (seq 0 n)) w1 (acc := []) eq_refl)
    as (ps & w2 & Efor & Hps & Hl & Hcalls).
  { intros i w0 Hi. apply Hok.
    apply in_map_iff in Hi as (k & <- & Hk). apply in_seq in Hk. lia. }
  cbv zeta. rewrite Efor. rewrite length_map, length_seq in Hl.
  replace (C - n)%nat with (S (C - n - 1)) by lia.
  cbn [seq map for_each Nat.add]. unfold bind at 1 2.
  destruct (Hfail w2) as (w3 & E3 & Hp3). rewrite E3.
  exists ps, w2, w3. rewrite Hp3, Hps. cbn [app].
  repeat split; auto.
Qed.

(** ** The groups of line 108 *)

Lemma split_on_cons (sep : ascii) (s : string) :
  exists (w : string) (ws : list string), split_on sep s = w :: ws.
Proof.
  destruct s as [| c s]; simpl; [ eauto | ].
  destruct (Ascii.eqb c sep); [ eauto | ].
  destruct (split_on sep s); eauto.
Qed.

Lemma join_split_on (sep : ascii) (s : string) :
  join sep (split_on sep s) = s.
Proof.
  induction s as [| c s IH]; [ reflexivity | ].
  cbn [split_on]. destruct (Ascii.eqb_spec c sep) as [-> | Hc].
  - destruct (split_on_cons sep s) as (w & ws & E). rewrite E in *.
    cbn [join]. cbn [join] in IH. now rewrite IH.
  - destruct (split_on_cons sep s) as (w & ws & E). rewrite E in *.
    cbn [join] in *. destruct ws; now rewrite <- IH.
Qed.

Lemma comprehension_Forall2 {A B : Type} (f : A -> outcome B) (xs : list A)
      (ys : list B) :
  comprehension f xs = Return ys -> Forall2 (fun x y => f x = Return y) xs ys.
Proof.
  revert ys. induction xs as [| x xs IH]; intros ys H; simpl in H.
  - injection H as <-. constructor.
  - destruct (f x) as [y | e] eqn:Ey; [ | discriminate ].
    destruct (comprehension f xs) as [ys' | e]; [ | discriminate ].
    injection H as <-. constructor; auto.
Qed.

(** X17: whatever result line 108 is given, when it evaluates to a list of
    groups no group is empty: an entry without members gives the group of the
    single empty reference. *)
Theorem syncgroups_never_empty (groups : json) (gs : list (list string)) :
  syncgroups_of groups = Return gs ->
  Forall (fun g => g <> []) gs.
Proof.
  unfold syncgroups_of.
  destruct (dict_get groups "syncgroups_loop" (JObj [])) as [loop | e];
    [ | discriminate ].
  destruct (iterate loop) as [xs | e]; [ | discriminate ].
  intros H. apply comprehension_Forall2 in H.
  induction H as [| x g xs gs Hx _ IH]; [ constructor | ].
  constructor; [ | assumption ].
  destruct (dict_get x "sync_members" (JStr "")) as [m | e]; [ | discriminate ].
  destruct m; try discriminate. injection Hx as <-.
  destruct (split_on_cons "," s) as (w & ws & ->). discriminate.
Qed.

(** X18: when [syncgroups_loop] is a list, line 108 gives one group per entry,
    in the order of the entries, and joining a group with commas gives back
    the [sync_members] of its entry (the empty string when the entry has
    none). *)
Theorem syncgroups_join (kv : list (string * json)) (loop : list json)
        (gs : list (list string)) :
  assoc "syncgroups_loop" kv = Some (JArr loop) ->
  syncgroups_of (JObj kv) = Return gs ->
  Forall2 (fun x g => dict_get x "sync_members" (JStr "")
                      = Return (JStr (join "," g))) loop gs.
Proof.
  intros Hk. unfold syncgroups_of. cbn [dict_get]. rewrite Hk. cbn [iterate].
  clear Hk. intros H. apply comprehension_Forall2 in H.
  induction H as [| x g xs gs' Hx _ IH]; [ constructor | ].
  constructor; [ | assumption ].
  destruct (dict_get x "sync_members" (JStr "")) as [m | e]; [ | discriminate ].
  destruct m; try discriminate. injection Hx as <-.
  now rewrite join_split_on.
Qed.

(** The comprehension raises when the function does on some item, whatever
    the place of the item, when the function raises nothing else. *)
Lemma comprehension_raises {A B : Type} (f : A -> outcome B) (e : exn)
      (xs : list A) :
  (forall x e', f x = Raise e' -> e' = e) ->
  Exists (fun x => f x = Raise e) xs ->
  comprehension f xs = Raise e.
Proof.
  intros Honly. induction 1 as [x xs Hx | x xs _ IH]; cbn [comprehension].
  - now rewrite Hx.
  - destruct (f x) as [y | e'] eqn:Ex; [ now rewrite IH | ].
    now rewrite (Honly _ _ Ex).
Qed.

(** X19: a result without [syncgroups_loop] gives no group; a result that is
    not an object raises [AttributeError]; and so does a list
    [syncgroups_loop] in which some entry, at whatever place, is not an object
    or has [sync_members] that is not a string. *)
Theorem syncgroups_edge_cases :
  (forall kv, assoc "syncgroups_loop" kv = None ->
              syncgroups_of (JObj kv) = Return [])
  /\ (forall groups, (forall kv, groups <> JObj kv) ->
                     syncgroups_of groups = Raise AttributeError)
  /\ (forall kv loop,
        assoc "syncgroups_loop" kv = Some (JArr loop) ->
        Exists (fun x => forall e, x <> JObj e) loop ->
        syncgroups_of (JObj kv) = Raise AttributeError)
  /\ (forall kv loop,
        assoc "syncgroups_loop" kv = Some (JArr loop) ->
        Exists (fun x => exists e m,
                  x = JObj e /\ assoc "sync_members" e = Some m
                  /\ forall s, m <> JStr s) loop ->
        syncgroups_of (JObj kv) = Raise AttributeError).
Proof.
  assert (Honly : forall (x : json) (e' : exn),
            match dict_get x "sync_members" (JStr "") with
            | Return m => str_split m ","
            | Raise e => Raise e
            end = Raise e' -> e' = AttributeError).
  { intros x e' H. destruct x; cbn [dict_get] in H;
      try (now injection H as <-).
    destruct (assoc "sync_members" kv) as [m |]; [ destruct m | ];
      cbn [str_split] in H; try discriminate; now injection H as <-. }
  repeat split.
  - intros kv H. unfold syncgroups_of. cbn [dict_get]. now rewrite H.
  - intros groups H. destruct groups; try reflexivity. now destruct (H kv).
  - intros kv loop Hk Hex. unfold syncgroups_of. cbn [dict_get]. rewrite Hk.
    cbn [iterate]. apply comprehension_raises; [ exact Honly | ].
    eapply Exists_impl; [ | exact Hex ]. cbv beta.
    intros x Hx. destruct x; try reflexivity. now destruct (Hx kv0).
  - intros kv loop Hk Hex. unfold syncgroups_of. cbn [dict_get]. rewrite Hk.
    cbn [iterate]. apply comprehension_raises; [ exact Honly | ].
    eapply Exists_impl; [ | exact Hex ]. cbv beta.
    intros x (e & m & -> & He & Hm). cbn [dict_get]. rewrite He.
    destruct m; try reflexivity. now destruct (Hm s).
Qed.

(** ** The report of lines 144 to 162 *)


(** X20: in the report built from any players and groups there is one item
    per player, in the order of the players, with the player's name and
    reference, and every [sync_index] is -1 or an index into the groups. *)
Theorem sync_status_items (ps : list LMSPlayer) (groups : list (list string)) :
  let report := build_sync_status ps groups in
  player_count report = Z.of_nat (List.length (status_players report))
  /\ map item_name (status_players report) = map name ps
  /\ map item_ref (status_players report) = map ref ps
  /\ Forall (fun it => -1 <= sync_index it < group_count report)
            (status_players report).
Proof.
  cbn. rewrite length_map, !map_map. repeat split.
  apply Forall_forall. intros it Hit.
  apply in_map_iff in Hit as (p & <- & _).
  destruct (item_of_first_group groups p)
    as [[-> _] | (b & g & a & -> & -> & _)].
  - lia.
  - rewrite length_app. cbn [List.length]. lia.
Qed.


(** ** A new connection *)

(** X22: a new connection keeps the host and the port it was given, starts
    its counter at 1 with no version and no player list cached, and its
    [url] is its [web] address followed by [jsonrpc.js]. *)
Theorem new_connection_state (h : string) (p : Z) :
  exists s : LMSServer,
    __init__ h p = Return s
    /\ host s = h /\ port s = p /\ id s = 1
    /\ _version s = JNull /\ players s = None
    /\ url s = (web s ++ "jsonrpc.js")%string.
Proof.
  unfold __init__, format. simpl. eexists. split; [ reflexivity | ].
  cbn. repeat split. f_equal; f_equal; f_equal; f_equal; f_equal; f_equal; f_equal.
  induction h as [| c h IH]; simpl; [ | now rewrite IH ].
  f_equal. induction (str_of_int p) as [| c s IH]; simpl; [ reflexivity | now rewrite IH ].
Qed.

End ServerMore.

(** ** The further properties on the stub servers *)

Lemma request_unknown_keyword_witness :
  In "params"%string (map fst [("params"%string, PStr "ping")])
  /\ _request lms [] [("params"%string, PStr "ping")] fresh
     = (Raise TypeError, fresh).
Proof.
  split; [ now left | ].
  apply (@request_unknown_keyword lms [] [("params"%string, PStr "ping")]
           "params" fresh); [ now left | discriminate | discriminate ].
Defined.

Lemma rescan_swallows_probe_errors_witness :
  (r <- _request down [PStr "rescan ?"] [] ;; lift (getitem r "_rescan")) fresh
  = (Raise RequestsConnectionError,
     after_post down fresh (PStr "rescan ?") (PStr "-"))
  /\ rescan down "fast" fresh
     = (Return (JStr ""), after_post down fresh (PStr "rescan ?") (PStr "-")).
Proof.
  split; [ reflexivity | ].
  exact (@rescan_swallows_probe_errors down "fast" fresh _ _ eq_refl).
Defined.

Lemma rescan_by_status_witness :
  rescan scanning "full" fresh
  = (Return (JStr ""), bump (after_post scanning fresh (PStr "rescan ?") (PStr "-")))
  /\ rescan lms "everything" fresh
     = (Return JNull, bump (after_post lms fresh (PStr "rescan ?") (PStr "-")))
  /\ rescan lms "playlists" fresh
     = (Raise TypeError, bump (after_post lms fresh (PStr "rescan ?") (PStr "-"))).
Proof.
  split; [ | split ].
  - exact (proj1 (@rescan_by_status scanning "full" fresh _ (JInt 1) eq_refl)
             eq_refl).
  - apply (proj1 (proj2 (@rescan_by_status lms "everything" fresh _ (JInt 0)
                           eq_refl)));
      [ reflexivity | discriminate | discriminate | discriminate ].
  - apply (proj2 (proj2 (@rescan_by_status lms "playlists" fresh _ (JInt 0)
                           eq_refl))); [ reflexivity | auto ].
Defined.

Lemma dispatch_ids_all_accepted_witness :
  exists w : world,
    LMSServer_new "localhost" 9000 [] = Return w
    /\ request_ids (posted (snd (dispatch_all hollow [ping_call; ping_call; ping_call] w)))
       = [1; 2; 3]
    /\ id (self (snd (dispatch_all hollow [ping_call; ping_call; ping_call] w))) = 4.
Proof.
  exact (@dispatch_ids_all_accepted hollow "localhost" 9000
           [ping_call; ping_call; ping_call] (fun _ _ _ => eq_refl)).
Defined.

Lemma get_players_count_fails_witness :
  fst (get_player_count down fresh) = Raise RequestsConnectionError
  /\ fst (get_players down numbered fresh) = Raise RequestsConnectionError
  /\ players (self (snd (get_players down numbered fresh))) = Some []
  /\ posted (snd (get_players down numbered fresh))
     = posted (snd (get_player_count down fresh)).
Proof.
  split; [ reflexivity | ].
  exact (@get_players_count_fails down numbered fresh _ eq_refl).
Defined.

Lemma get_players_no_player_witness :
  fst (get_player_count (counting (JInt 0)) fresh) = Return (JInt 0)
  /\ get_players (counting (JInt 0)) broken fresh
     = (Return [], with_players [] (snd (get_player_count (counting (JInt 0)) fresh))).
Proof.
  split; [ reflexivity | ].
  apply (@get_players_no_player (counting (JInt 0)) broken fresh 0);
    [ reflexivity | lia ].
Defined.

Lemma get_players_count_not_int_witness :
  fst (get_player_count (counting (JStr "3")) fresh) = Return (JStr "3")
  /\ get_players (counting (JStr "3")) numbered fresh
     = (Raise TypeError,
        with_players [] (snd (get_player_count (counting (JStr "3")) fresh))).
Proof.
  split; [ reflexivity | ].
  apply (@get_players_count_not_int (counting (JStr "3")) numbered fresh (JStr "3"));
    [ reflexivity | discriminate | discriminate ].
Defined.

Lemma get_players_factory_fails_witness :
  fst (get_player_count lms fresh) = Return (JInt 3)
  /\ exists (ps : list LMSPlayer) (w2 w' : world),
       get_players lms broken fresh = (Raise KeyError, w')
       /\ players (self w') = Some ps
       /\ List.length ps = 1%nat
       /\ factory_calls broken [0]
            (with_players [] (snd (get_player_count lms fresh))) ps w2
       /\ broken 1 w2 = (Raise KeyError, w').
Proof.
  split; [ reflexivity | ].
  refine (@get_players_factory_fails lms broken 3 1 fresh KeyError
            eq_refl _ _ _).
  - lia.
  - intros i w0 Hi. assert (i = 0) as -> by lia.
    do 2 eexists. split; reflexivity.
  - intros w0. eexists. split; reflexivity.
Defined.

Lemma syncgroups_never_empty_witness :
  syncgroups_of (JObj [("syncgroups_loop", JArr [JObj [("sync_members", JStr "")]; JObj []])])
  = Return [[""%string]; [""%string]]
  /\ Forall (fun g : list string => g <> []) [[""%string]; [""%string]].
Proof.
  split; [ reflexivity | ].
  exact (@syncgroups_never_empty
           (JObj [("syncgroups_loop",
                   JArr [JObj [("sync_members", JStr "")]; JObj []])])
           [[""%string]; [""%string]] eq_refl).
Defined.

Lemma syncgroups_join_witness :
  syncgroups_of (JObj [("syncgroups_loop",
                        JArr [JObj [("sync_members", JStr "AA:AA,BB:BB")]; JObj []])])
  = Return [["AA:AA"; "BB:BB"]; [""]]%string
  /\ Forall2 (fun x g => dict_get x "sync_members" (JStr "")
                         = Return (JStr (join "," g)))
       [JObj [("sync_members", JStr "AA:AA,BB:BB")]; JObj []]
       [["AA:AA"; "BB:BB"]; [""]]%string.
Proof.
  split; [ reflexivity | ].
  exact (@syncgroups_join
           [("syncgroups_loop"%string,
             JArr [JObj [("sync_members", JStr "AA:AA,BB:BB")]; JObj []])]
           [JObj [("sync_members", JStr "AA:AA,BB:BB")]; JObj []]
           [["AA:AA"; "BB:BB"]; [""]]%string eq_refl eq_refl).
Defined.

Lemma syncgroups_edge_cases_witness :
  syncgroups_of (JObj []) = Return []
  /\ syncgroups_of (JArr []) = Raise AttributeError
  /\ syncgroups_of (JObj [("syncgroups_loop", JArr [JObj []; JStr "x"])])
     = Raise AttributeError
  /\ syncgroups_of
       (JObj [("syncgroups_loop",
               JArr [JObj [("sync_members", JStr "AA:AA")];
                     JObj [("sync_members", JInt 7)]])])
     = Raise AttributeError.
Proof.
  destruct syncgroups_edge_cases as (H1 & H2 & H3 & H4).
  split; [ exact (H1 [] eq_refl) | ].
  split; [ apply H2; discriminate | ].
  split.
  - apply (H3 [("syncgroups_loop"%string, JArr [JObj []; JStr "x"])]
              [JObj []; JStr "x"] eq_refl).
    apply Exists_cons_tl, Exists_cons_hd. discriminate.
  - apply (H4 [("syncgroups_loop"%string,
                JArr [JObj [("sync_members"%string, JStr "AA:AA")];
                      JObj [("sync_members"%string, JInt 7)]])]
              [JObj [("sync_members"%string, JStr "AA:AA")];
               JObj [("sync_members"%string, JInt 7)]] eq_refl).
    apply Exists_cons_tl, Exists_cons_hd.
    exists [("sync_members"%string, JInt 7)], (JInt 7).
    repeat split. discriminate.
Defined.


(** * Further properties of the URL helper *)

Section UtilsMore.

Import Utils.

Ltac cases :=
  repeat match goal with
         | |- context [?a <? ?b] => destruct (Z.ltb_spec a b); try lia
         | |- context [?a <=? ?b] => destruct (Z.leb_spec a b); try lia
         | |- context [?a =? ?b] => destruct (Z.eqb_spec a b); try lia
         end.

Lemma is_safe_below_0x80 (c : Z) : is_safe c = true -> 0 <= c < 0x80.
Proof.
  unfold is_safe, always_safe. intros H.
  destruct (Z.ltb_spec c 0x80) as [Hlt | Hge];
    [ destruct (Z.leb_spec 0 c) as [Hpos | Hneg]; [ lia | ] | ];
    exfalso; revert H; cases; discriminate.
Qed.

Lemma utf8_encode_app (s t : text) :
  utf8_encode (s ++ t) =
  match utf8_encode s, utf8_encode t with
  | Return a, Return b => Return (a ++ b)
  | Raise e, _ => Raise e
  | Return _, Raise e => Raise e
  end.
Proof.
  induction s as [| c s IH]; simpl.
  - now destruct (utf8_encode t).
  - destruct (utf8_encode_char c) as [bs | e]; [ | reflexivity ].
    rewrite IH. destruct (utf8_encode s) as [a | e]; [ | reflexivity ].
    destruct (utf8_encode t); [ now rewrite app_assoc | reflexivity ].
Qed.

(** X23: [quote] leaves unchanged a text made of the characters it holds
    safe: the letters, the digits, [_], [.], [-], [~] and [/]. *)
Theorem quote_safe_text (t : text) :
  Forall (fun c => is_safe c = true) t -> quote t = Return t.
Proof.
  unfold quote, urllib_quote.
  induction 1 as [| c t Hc _ IH]; [ reflexivity | ].
  cbn [utf8_encode]. unfold utf8_encode_char.
  destruct (is_safe_below_0x80 c Hc) as [_ Hlt].
  destruct (Z.ltb_spec c 0x80); [ | lia ].
  destruct (utf8_encode t) as [bs |]; [ | discriminate ].
  injection IH as IH. cbn [app quote_from_bytes flat_map].
  unfold quoter at 1. rewrite Hc. cbn [app].
  unfold quote_from_bytes in IH. now rewrite IH.
Qed.

(** X24: quoting a concatenation is concatenating what quoting the two parts
    gives. *)
Theorem quote_app (s t a b : text) :
  quote s = Return a -> quote t = Return b ->
  quote (s ++ t) = Return (a ++ b).
Proof.
  unfold quote, urllib_quote. rewrite utf8_encode_app.
  destruct (utf8_encode s) as [bs |]; [ | discriminate ].
  destruct (utf8_encode t) as [bt |]; [ | discriminate ].
  intros [= <-] [= <-]. unfold quote_from_bytes. now rewrite flat_map_app.
Qed.

Lemma utf8_encode_char_bytes (c : Z) (bs : bytes) :
  is_code_point c -> utf8_encode_char c = Return bs ->
  Forall (fun b => 0 <= b < 256) bs
  /\ (1 <= List.length bs <= 4)%nat.
Proof.
  intros Hc E.
  assert (Hs : is_surrogate c = false).
  { destruct (is_surrogate c) eqn:Es; [ exfalso | reflexivity ].
    unfold utf8_encode_char in E. rewrite Es in E.
    unfold is_surrogate in Es. revert E. cases; discriminate. }
  destruct (utf8_decode_encode_char [] Hc Hs) as (bs' & E' & Hb & _).
  rewrite E in E'. injection E' as <-. split; [ assumption | ].
  unfold utf8_encode_char in E. rewrite Hs in E. revert E.
  cases; intros [= <-]; simpl; lia.
Qed.

Lemma utf8_encode_bytes (t : text) : forall bs : bytes,
  Forall is_code_point t -> utf8_encode t = Return bs ->
  Forall (fun b => 0 <= b < 256) bs
  /\ (List.length t <= List.length bs <= 4 * List.length t)%nat.
Proof.
  induction t as [| c t IH]; intros bs Ht E; simpl in E.
  - injection E as <-. split; [ constructor | simpl; lia ].
  - inversion Ht as [| ? ? Hc Ht']; subst.
    destruct (utf8_encode_char c) as [bc |] eqn:Ec; [ | discriminate ].
    destruct (utf8_encode t) as [bt |]; [ | discriminate ].
    injection E as <-.
    destruct (utf8_encode_char_bytes Hc Ec) as [Hb Hl].
    destruct (IH bt Ht' eq_refl) as [Hbt Hlt].
    split; [ now apply Forall_app | ].
    rewrite length_app. simpl. lia.
Qed.

Lemma hex_digit_safe (n : Z) : 0 <= n < 16 -> is_safe (hex_digit n) = true.
Proof.
  apply (forall_below (fun n => is_safe (hex_digit n)) 16). reflexivity.
Qed.

Lemma quoter_chars (b : Z) :
  0 <= b < 256 ->
  Forall (fun c => is_safe c = true \/ c = 37) (quoter b)
  /\ (1 <= List.length (quoter b) <= 3)%nat.
Proof.
  intros H. unfold quoter. destruct (is_safe b) eqn:Es.
  - split; [ constructor; [ now left | constructor ] | simpl; lia ].
  - split; [ | simpl; lia ].
    constructor; [ now right | ].
    constructor; [ left; apply hex_digit_safe; Z.div_mod_to_equations; lia | ].
    constructor; [ left; apply hex_digit_safe; Z.div_mod_to_equations; lia | ].
    constructor.
Qed.

Lemma quote_from_bytes_chars (bs : bytes) :
  Forall (fun b => 0 <= b < 256) bs ->
  Forall (fun c => is_safe c = true \/ c = 37) (quote_from_bytes bs)
  /\ (List.length bs <= List.length (quote_from_bytes bs)
      <= 3 * List.length bs)%nat.
Proof.
  induction 1 as [| b bs Hb _ [IH1 IH2]]; simpl.
  - split; [ constructor | lia ].
  - destruct (quoter_chars Hb) as [Hq Hl].
    split; [ now apply Forall_app | ].
    rewrite length_app. lia.
Qed.

(** X25: what [quote] returns holds nothing but safe characters and percent
    signs, so it is ASCII text that can stand in a URL; it is at least as long
    as the text and at most twelve times as long. *)
Theorem quote_url_safe (t q : text) :
  Forall is_code_point t -> quote t = Return q ->
  Forall (fun c => is_safe c = true \/ c = 37) q
  /\ (List.length t <= List.length q <= 12 * List.length t)%nat.
Proof.
  unfold quote, urllib_quote. intros Ht E.
  destruct (utf8_encode t) as [bs |] eqn:Eb; [ | discriminate ].
  injection E as <-.
  destruct (utf8_encode_bytes Ht Eb) as [Hb Hl].
  destruct (quote_from_bytes_chars Hb) as [Hq Hlq].
  split; [ assumption | lia ].
Qed.

(** X26: [quote] is injective on texts of Unicode scalar values: two such
    texts that quote to the same string are equal. *)
Theorem quote_injective (s t : text) :
  Forall scalar_value s -> Forall scalar_value t ->
  quote s = quote t -> s = t.
Proof.
  intros Hs Ht. unfold quote, urllib_quote.
  destruct (utf8_decode_encode Hs) as (bs & Es & Hbs & Ds).
  destruct (utf8_decode_encode Ht) as (bt & Et & Hbt & Dt).
  rewrite Es, Et. intros [= E].
  apply (f_equal unquote_to_bytes) in E.
  rewrite (proj1 (unquote_to_bytes_quote_from_bytes Hbs)) in E.
  rewrite (proj1 (unquote_to_bytes_quote_from_bytes Hbt)) in E.
  now rewrite <- Ds, <- Dt, E.
Qed.

(** ** [unquote] around characters that are not ASCII *)

Lemma unquote_runs_plain (s : text) : forall run : text,
  existsb (Z.eqb 37) s = false -> existsb (Z.eqb 37) run = false ->
  Forall (fun c => c < 0x80) run ->
  unquote_runs s run = run ++ s.
Proof.
  induction s as [| c s IH]; intros run Hs Hrun Ha.
  - cbn [unquote_runs]. rewrite app_nil_r.
    now rewrite unquote_to_bytes_no_percent, utf8_decode_ascii.
  - cbn [existsb] in Hs. apply orb_false_iff in Hs as [Hc Hs].
    cbn [unquote_runs]. destruct (Z.ltb_spec c 0x80).
    + rewrite IH, <- app_assoc; [ reflexivity | assumption | | ].
      * rewrite existsb_app, Hrun. cbn [existsb orb]. now rewrite Hc.
      * apply Forall_app. split; [ assumption | now repeat constructor ].
    + rewrite unquote_to_bytes_no_percent, utf8_decode_ascii by assumption.
      now rewrite (IH [] Hs eq_refl (Forall_nil _)).
Qed.

(** The test for a percent sign at the head of [unquote] is a short cut. *)
Lemma urllib_unquote_runs (s : text) : urllib_unquote s = unquote_runs s [].
Proof.
  unfold urllib_unquote. destruct (existsb (Z.eqb 37) s) eqn:E; [ reflexivity | ].
  now rewrite (unquote_runs_plain s (run := []) E eq_refl (Forall_nil _)).
Qed.

Lemma unquote_runs_split (s : text) (c : Z) (t : text) : forall run : text,
  Forall (fun c => c < 0x80) s -> 0x80 <= c ->
  unquote_runs (s ++ c :: t) run
  = utf8_decode (unquote_to_bytes (run ++ s)) ++ c :: unquote_runs t [].
Proof.
  induction s as [| a s IH]; intros run Hs Hc.
  - cbn [app unquote_runs]. destruct (Z.ltb_spec c 0x80); [ lia | ].
    now rewrite app_nil_r.
  - inversion Hs as [| ? ? Ha Hs']; subst.
    cbn [app unquote_runs]. destruct (Z.ltb_spec a 0x80); [ | lia ].
    rewrite (IH _ Hs' Hc), <- app_assoc. reflexivity.
Qed.

(** X27: [unquote] keeps a character that is not ASCII where it is and
    decodes what stands before it and what stands after it on their own: the
    escapes of an ASCII stretch never combine with a character next to it. *)
Theorem unquote_around_non_ascii (s : text) (c : Z) (t : text) :
  Forall (fun a => a < 0x80) s -> 0x80 <= c ->
  unquote (s ++ c :: t) = unquote s ++ c :: unquote t.
Proof.
  intros Hs Hc. unfold unquote.
  rewrite (urllib_unquote_runs (s ++ c :: t)), (urllib_unquote_runs t).
  rewrite (unquote_runs_split t [] Hs Hc). cbn [app].
  now rewrite urllib_unquote_ascii.
Qed.

(** ** [unquote] gives well-formed text *)

Lemma scalar_replacement : scalar_value replacement.
Proof. split; [ unfold is_code_point, replacement; lia | reflexivity ]. Qed.

Ltac scalar :=
  split; [ unfold is_code_point | unfold is_surrogate ];
  rewrite ?Z.shiftl_mul_pow2 by lia;
  change (2 ^ 6) with 64; change (2 ^ 12) with 4096;
  change (2 ^ 18) with 262144; cases; try lia; reflexivity.

Lemma utf8_decode_scalar (n : nat) : forall bs : bytes,
  (List.length bs <= n)%nat ->
  Forall (fun b => 0 <= b < 256) bs ->
  Forall scalar_value (utf8_decode bs).
Proof.
  induction n as [| n IH]; intros bs Hn Hb.
  - destruct bs; [ constructor | simpl in Hn; lia ].
  - destruct bs as [| b1 r1]; [ constructor | ].
    inversion Hb as [| ? ? Hbyte1 Hr1]; subst.
    assert (I1 : Forall scalar_value (utf8_decode r1))
      by (apply IH; [ simpl in Hn; lia | assumption ]).
    cbn [utf8_decode].
    destruct (Z.ltb_spec b1 0x80); [ constructor; [ scalar | exact I1 ] | ].
    destruct (Z.ltb_spec b1 0xC2);
      [ constructor; [ exact scalar_replacement | exact I1 ] | ].
    destruct r1 as [| b2 r2].
    { cases;
        (constructor; [ exact scalar_replacement | first [ exact I1 | constructor ] ]). }
    inversion Hr1 as [| ? ? Hbyte2 Hr2]; subst.
    assert (I2 : Forall scalar_value (utf8_decode r2))
      by (apply IH; [ simpl in Hn; lia | assumption ]).
    destruct (Z.ltb_spec b1 0xE0).
    { unfold is_continuation.
      destruct ((0x80 <=? b2) && (b2 <? 0xC0)) eqn:E2;
        [ | constructor; [ exact scalar_replacement | exact I1 ] ].
      apply andb_prop in E2 as [Ea Eb].
      apply Z.leb_le in Ea. apply Z.ltb_lt in Eb.
      constructor; [ scalar | exact I2 ]. }
    destruct r2 as [| b3 r3].
    { unfold is_continuation.
      cases; cbn [andb negb orb];
        (constructor; [ exact scalar_replacement | first [ exact I1 | constructor ] ]). }
    inversion Hr2 as [| ? ? Hbyte3 Hr3]; subst.
    assert (I3 : Forall scalar_value (utf8_decode r3))
      by (apply IH; [ simpl in Hn; lia | assumption ]).
    destruct (Z.ltb_spec b1 0xF0).
    { destruct (negb (is_continuation b2)
                || (if b2 <? 0xA0 then b1 =? 0xE0 else b1 =? 0xED)) eqn:E2;
        [ constructor; [ exact scalar_replacement | exact I1 ] | ].
      apply orb_false_iff in E2 as [Ec Es]. apply negb_false_iff in Ec.
      unfold is_continuation in *.
      apply andb_prop in Ec as [Ea Eb].
      apply Z.leb_le in Ea. apply Z.ltb_lt in Eb.
      destruct ((0x80 <=? b3) && (b3 <? 0xC0)) eqn:E3;
        [ | constructor; [ exact scalar_replacement | exact I2 ] ].
      apply andb_prop in E3 as [Ea3 Eb3].
      apply Z.leb_le in Ea3. apply Z.ltb_lt in Eb3.
      constructor; [ | exact I3 ].
      revert Es. cases; intros Es; try discriminate; scalar. }
    destruct (Z.ltb_spec b1 0xF5);
      [ | constructor; [ exact scalar_replacement | exact I1 ] ].
    destruct (negb (is_continuation b2)
              || (if b2 <? 0x90 then b1 =? 0xF0 else b1 =? 0xF4)) eqn:E2;
      [ constructor; [ exact scalar_replacement | exact I1 ] | ].
    apply orb_false_iff in E2 as [Ec Es]. apply negb_false_iff in Ec.
    unfold is_continuation in *.
    apply andb_prop in Ec as [Ea Eb].
    apply Z.leb_le in Ea. apply Z.ltb_lt in Eb.
    destruct ((0x80 <=? b3) && (b3 <? 0xC0)) eqn:E3;
      [ | constructor; [ exact scalar_replacement | exact I2 ] ].
    apply andb_prop in E3 as [Ea3 Eb3].
    apply Z.leb_le in Ea3. apply Z.ltb_lt in Eb3.
    destruct r3 as [| b4 r4];
      [ constructor; [ exact scalar_replacement | constructor ] | ].
    inversion Hr3 as [| ? ? Hbyte4 Hr4]; subst.
    assert (I4 : Forall scalar_value (utf8_decode r4))
      by (apply IH; [ simpl in Hn; lia | assumption ]).
    destruct ((0x80 <=? b4) && (b4 <? 0xC0)) eqn:E4;
      [ | constructor; [ exact scalar_replacement | exact I3 ] ].
    apply andb_prop in E4 as [Ea4 Eb4].
    apply Z.leb_le in Ea4. apply Z.ltb_lt in Eb4.
    constructor; [ | exact I4 ].
    revert Es. cases; intros Es; try discriminate; scalar.
Qed.

Lemma hex_value_range (c a : Z) : hex_value c = Some a -> 0 <= a < 16.
Proof.
  unfold hex_value. cases; cbn [andb]; intros [= <-]; lia.
Qed.

Lemma unquote_to_bytes_range (n : nat) : forall s : text,
  (List.length s <= n)%nat ->
  Forall (fun c => 0 <= c < 0x80) s ->
  Forall (fun b => 0 <= b < 256) (unquote_to_bytes s).
Proof.
  induction n as [| n IH]; intros s Hn Hs.
  - destruct s; [ constructor | simpl in Hn; lia ].
  - destruct s as [| c r1]; [ constructor | ].
    inversion Hs as [| ? ? Hc Hr1]; subst.
    assert (I1 : Forall (fun b => 0 <= b < 256) (unquote_to_bytes r1))
      by (apply IH; [ simpl in Hn; lia | assumption ]).
    cbn [unquote_to_bytes].
    destruct (c =? 37); [ | constructor; [ lia | exact I1 ] ].
    destruct r1 as [| h r2]; [ constructor; [ lia | exact I1 ] | ].
    destruct r2 as [| l r3]; [ constructor; [ lia | exact I1 ] | ].
    destruct (hex_value h) as [a |] eqn:Ea; [ | constructor; [ lia | exact I1 ] ].
    destruct (hex_value l) as [b |] eqn:Eb; [ | constructor; [ lia | exact I1 ] ].
    apply hex_value_range in Ea, Eb.
    inversion Hr1 as [| ? ? _ Hr2]; subst.
    inversion Hr2 as [| ? ? _ Hr3]; subst.
    constructor; [ lia | ]. apply IH; [ simpl in Hn; lia | assumption ].
Qed.

Lemma decode_run_scalar (run : text) :
  Forall (fun c => 0 <= c < 0x80) run ->
  Forall scalar_value (utf8_decode (unquote_to_bytes run)).
Proof.
  intros H. eapply utf8_decode_scalar; [ reflexivity | ].
  eapply unquote_to_bytes_range; [ reflexivity | assumption ].
Qed.

Lemma unquote_runs_scalar (s : text) : forall run : text,
  Forall scalar_value s -> Forall (fun c => 0 <= c < 0x80) run ->
  Forall scalar_value (unquote_runs s run).
Proof.
  induction s as [| c s IH]; intros run Hs Hrun; cbn [unquote_runs].
  - now apply decode_run_scalar.
  - inversion Hs as [| ? ? Hc Hs']; subst.
    destruct (Z.ltb_spec c 0x80).
    + apply IH; [ assumption | ]. apply Forall_app. split; [ assumption | ].
      constructor; [ | constructor ]. destruct Hc as [[H0 _] _]. lia.
    + apply Forall_app. split; [ now apply decode_run_scalar | ].
      constructor; [ assumption | ]. apply IH; [ assumption | constructor ].
Qed.

(** X28: [unquote] gives well-formed text for well-formed text: whatever the
    escapes spell (overlong forms, encoded surrogates, bytes cut short), what
    comes out holds Unicode scalar values only, the replacement character
    standing for what cannot be decoded. *)
Theorem unquote_well_formed (s : text) :
  Forall scalar_value s -> Forall scalar_value (unquote s).
Proof.
  intros H. unfold unquote. rewrite urllib_unquote_runs.
  apply unquote_runs_scalar; [ assumption | constructor ].
Qed.

End UtilsMore.

Lemma quote_safe_text_witness :
  Forall (fun c => is_safe c = true) [109; 117; 115; 105; 99; 47; 97; 45; 49]
  /\ quote [109; 117; 115; 105; 99; 47; 97; 45; 49]
     = Return [109; 117; 115; 105; 99; 47; 97; 45; 49].
Proof.
  assert (H : Forall (fun c => is_safe c = true)
                     [109; 117; 115; 105; 99; 47; 97; 45; 49])
    by (repeat constructor).
  split; [ exact H | exact (quote_safe_text H) ].
Defined.

Lemma quote_app_witness :
  quote [97; 32] = Return [97; 37; 50; 48]
  /\ quote [233] = Return [37; 67; 51; 37; 65; 57]
  /\ quote ([97; 32] ++ [233]) = Return ([97; 37; 50; 48] ++ [37; 67; 51; 37; 65; 57]).
Proof.
  split; [ reflexivity | ]. split; [ reflexivity | ].
  exact (@quote_app [97; 32] [233] _ _ eq_refl eq_refl).
Defined.

Lemma quote_url_safe_witness :
  Forall is_code_point [97; 32; 233; 0x20AC]
  /\ quote [97; 32; 233; 0x20AC]
     = Return [97; 37; 50; 48; 37; 67; 51; 37; 65; 57; 37; 69; 50; 37; 56; 50; 37; 65; 67]
  /\ Forall (fun c => is_safe c = true \/ c = 37)
       [97; 37; 50; 48; 37; 67; 51; 37; 65; 57; 37; 69; 50; 37; 56; 50; 37; 65; 67]
  /\ (4 <= 19 <= 12 * 4)%nat.
Proof.
  assert (H : Forall is_code_point [97; 32; 233; 0x20AC])
    by (repeat constructor; unfold is_code_point; lia).
  split; [ exact H | ]. split; [ reflexivity | ].
  exact (@quote_url_safe [97; 32; 233; 0x20AC]
           [97; 37; 50; 48; 37; 67; 51; 37; 65; 57; 37; 69; 50; 37; 56; 50; 37; 65; 67]
           H eq_refl).
Defined.

Lemma quote_injective_witness :
  Forall scalar_value [233] /\ quote [233] = quote [233] /\ [233] = [233].
Proof.
  assert (H : Forall scalar_value [233])
    by (repeat constructor; unfold is_code_point; lia).
  split; [ exact H | ]. split; [ reflexivity | ].
  exact (@quote_injective [233] [233] H H eq_refl).
Defined.

Lemma unquote_around_non_ascii_witness :
  Forall (fun a => a < 0x80) [37; 52; 49] /\ 0x80 <= 233
  /\ unquote ([37; 52; 49] ++ 233 :: [37; 67; 51]) = [65; 233; 0xFFFD].
Proof.
  assert (H : Forall (fun a => a < 0x80) [37; 52; 49]) by (repeat constructor).
  split; [ exact H | ]. split; [ lia | ].
  exact (@unquote_around_non_ascii [37; 52; 49] 233 [37; 67; 51] H ltac:(lia)).
Defined.

Lemma unquote_well_formed_witness :
  Forall scalar_value [37; 69; 68; 37; 65; 48; 37; 56; 48]
  /\ Forall scalar_value (unquote [37; 69; 68; 37; 65; 48; 37; 56; 48]).
Proof.
  assert (H : Forall scalar_value [37; 69; 68; 37; 65; 48; 37; 56; 48])
    by (repeat constructor; unfold is_code_point; lia).
  split; [ exact H | exact (unquote_well_formed H) ].
Defined.

(** The surrogate U+D800 spelled in escapes decodes to replacement
    characters. *)
Example unquote_encoded_surrogate :
  unquote [37; 69; 68; 37; 65; 48; 37; 56; 48] = [0xFFFD; 0xFFFD; 0xFFFD].
Proof. reflexivity. Qed.
